(** * Hebrew Live Subtitles: a shallow embedding of the Chrome extension

    The development follows the three scripts of the extension:
    - [Offscreen]     (extension/offscreen.js): recorder, WebM header splicing,
                      base64 transport encoding;
    - [Background]    (the service worker): session control, WebSocket channel,
                      reconnect policy, relay of server messages;
    - [ContentScript] (extension/contentScript.js): the caption overlay.

    Every script is single-threaded: a handler runs to completion, and the
    host (browser) delivers events one at a time.  Host objects that the
    scripts only hold references to (WebSockets, timers, recorders) live in
    an explicit store inside the state of the script.  Calls into the host
    that are observable from outside are collected in an effect trace. *)

From Stdlib Require Import ZArith NArith QArith_base List Lia Bool.
From Stdlib.Strings Require Import Byte Ascii String.
From stdpp Require Import base option list gmap.

Local Open Scope Z_scope.
Set Warnings "-register-all".

(* ================================================================== *)
(** * JavaScript strings *)

(** A JS string is a sequence of UTF-16 code units. *)
Definition jsstring := list N.

(** ASCII literals of the source text. *)
Definition lit (s : string) : jsstring :=
  map N_of_ascii (list_ascii_of_string s).
Arguments lit : simpl never.

(** ECMAScript WhiteSpace and LineTerminator code points: what
    [String.prototype.trim] removes.  All of them are in the BMP. *)
Definition is_white_space (c : N) : bool :=
  ((c =? 0x9) || (c =? 0xA) || (c =? 0xB) || (c =? 0xC) || (c =? 0xD)
   || (c =? 0x20) || (c =? 0xA0) || (c =? 0x1680)
   || ((0x2000 <=? c) && (c <=? 0x200A))
   || (c =? 0x2028) || (c =? 0x2029) || (c =? 0x202F) || (c =? 0x205F)
   || (c =? 0x3000) || (c =? 0xFEFF))%N.

Fixpoint trimStart (s : jsstring) : jsstring :=
  match s with
  | [] => []
  | c :: r => if is_white_space c then trimStart r else s
  end.

Definition trimEnd (s : jsstring) : jsstring := rev (trimStart (rev s)).

(** [s.trim()] *)
Definition trim (s : jsstring) : jsstring := trimEnd (trimStart s).

(** The text of a subtitle is "empty or whitespace only". *)
Definition blank (s : jsstring) : Prop :=
  Forall (fun c => is_white_space c = true) s.

(** Values found in a parsed JSON record or in an extension message. *)
Inductive jsval :=
| VUndefined
| VNull
| VBool (b : bool)
| VNum (q : Q)
| VStr (s : jsstring)
| VObj (fields : list (jsstring * jsval)).

(** ToBoolean *)
Definition truthy (v : jsval) : bool :=
  match v with
  | VUndefined | VNull => false
  | VBool b => b
  | VNum q => negb (Qeq_bool q 0%Q)
  | VStr s => negb (bool_decide (s = []))
  | VObj _ => true
  end.

(** Property read [v.name]; [None] is the TypeError of reading a property
    of [null] or [undefined].  Primitives have none of the properties
    the scripts read. *)
Definition get_field (name : jsstring) (v : jsval) : option jsval :=
  match v with
  | VUndefined | VNull => None
  | VObj fields =>
      Some (match find (fun kv => bool_decide (fst kv = name)) fields with
            | Some kv => snd kv
            | None => VUndefined
            end)
  | _ => Some VUndefined
  end.

(** [v === 'literal'] *)
Definition is_str (v : jsval) (s : jsstring) : bool :=
  match v with
  | VStr s' => bool_decide (s' = s)
  | _ => false
  end.

(** Metadata sent along with every audio chunk:
    [{ index, start, end, mimeType }].  Chunk durations are whole seconds
    (the popup reads them with [parseInt]), so the derived offsets are
    integers. *)
Record chunk_metadata := {
  md_index : nat;
  md_start : Z;
  md_end : Z;
  md_mimeType : jsstring;
}.

(** The configuration object built by the popup. *)
Record start_config := {
  chunkSize : option Z;        (* parseInt(...): None is NaN *)
  modelSize : jsstring;
  overlayPos : jsstring;
  fontSize : option Z;
  wsUrl : jsstring;
}.

(* ================================================================== *)
(** * Host functions [btoa] and [atob]

    Both are browser built-ins; they are written here after the WHATWG
    "forgiving-base64" algorithms, on binary strings (code units below
    256). *)
Module Base64.

Local Open Scope N_scope.

Definition pad : N := 61.   (* '=' *)

(** The base64 alphabet: index to code unit. *)
Definition b64char (i : N) : N :=
  if i <? 26 then 65 + i
  else if i <? 52 then 97 + (i - 26)
  else if i <? 62 then 48 + (i - 52)
  else if i =? 62 then 43
  else 47.

(** Code unit to index; [None] outside the alphabet. *)
Definition b64val (c : N) : option N :=
  if (65 <=? c) && (c <=? 90) then Some (c - 65)
  else if (97 <=? c) && (c <=? 122) then Some (c - 97 + 26)
  else if (48 <=? c) && (c <=? 57) then Some (c - 48 + 52)
  else if c =? 43 then Some 62
  else if c =? 47 then Some 63
  else None.

Fixpoint encode (l : list N) : list N :=
  match l with
  | [] => []
  | [a] => [b64char (a / 4); b64char ((a mod 4) * 16); pad; pad]
  | [a; b] =>
      [b64char (a / 4); b64char ((a mod 4) * 16 + b / 16);
       b64char ((b mod 16) * 4); pad]
  | a :: b :: c :: rest =>
      b64char (a / 4) :: b64char ((a mod 4) * 16 + b / 16)
      :: b64char ((b mod 16) * 4 + c / 64) :: b64char (c mod 64)
      :: encode rest
  end.

(** [btoa(data)]: throws (None) when a code unit exceeds 0xFF. *)
Definition btoa (data : jsstring) : option jsstring :=
  if forallb (fun c => c <=? 255) data then Some (encode data) else None.

Definition is_ascii_whitespace (c : N) : bool :=
  (c =? 0x9) || (c =? 0xA) || (c =? 0xC) || (c =? 0xD) || (c =? 0x20).

(** Removal of one or two trailing '=' . *)
Definition is_pad_tail (l : list N) : bool :=
  match l with
  | [x] => x =? pad
  | [x; y] => (x =? pad) && (y =? pad)
  | _ => false
  end.

Fixpoint strip_padding (l : list N) : list N :=
  match l with
  | [] => []
  | x :: r => if is_pad_tail l then [] else x :: strip_padding r
  end.

(** Sextets to bytes: 24 bits give three bytes; a final group of 18 bits
    drops its last two bits and gives two bytes, one of 12 bits drops its
    last four and gives one byte. *)
Fixpoint decode_sextets (l : list N) : list N :=
  match l with
  | s1 :: s2 :: s3 :: s4 :: rest =>
      let n := ((s1 * 64 + s2) * 64 + s3) * 64 + s4 in
      n / 65536 :: (n / 256) mod 256 :: n mod 256 :: decode_sextets rest
  | [s1; s2; s3] =>
      let n := ((s1 * 64 + s2) * 64 + s3) / 4 in
      [n / 256; n mod 256]
  | [s1; s2] => [(s1 * 64 + s2) / 16]
  | _ => []
  end.

(** [atob(data)]: throws (None) on a malformed input. *)
Definition atob (data : jsstring) : option jsstring :=
  let d := filter (fun c => is_ascii_whitespace c = false) data in
  let d := if (length d mod 4 =? 0)%nat then strip_padding d else d in
  if (length d mod 4 =? 1)%nat then None
  else option_map decode_sextets (mapM b64val d).

End Base64.

(* ================================================================== *)
(** * The capturer: extension/offscreen.js *)
Module Offscreen.

(** The media-cluster marker of the container: 1F 43 B6 75. *)
Definition cluster_id : list byte := [x1f; x43; xb6; x75].

(** [view[i] === 0x1F && view[i+1] === 0x43 && view[i+2] === 0xB6 &&
    view[i+3] === 0x75]; a read past the end is [undefined]. *)
Definition byte_is (read : option byte) (b : byte) : bool :=
  match read with
  | Some x => Byte.eqb x b
  | None => false
  end.

Definition marker_at (view : list byte) (i : nat) : bool :=
  byte_is (view !! i) x1f
  && byte_is (view !! (i + 1)%nat) x43
  && byte_is (view !! (i + 2)%nat) xb6
  && byte_is (view !! (i + 3)%nat) x75.

(** The loop [for (let i = 0; i < len - 3; i++)] of findClusterOffset,
    entered at index [i] with [fuel] iterations left to unfold. *)
Fixpoint scan (view : list byte) (fuel i : nat) : Z :=
  match fuel with
  | O => -1
  | S fuel' =>
      if Z.of_nat i <? Z.of_nat (length view) - 3 then
        if marker_at view i then Z.of_nat i else scan view fuel' (S i)
      else -1
  end.

(** The loop leaves after at most [len] iterations. *)
Definition findClusterOffset (buffer : list byte) : Z :=
  scan buffer (length buffer) 0.

(** [String.fromCharCode(bytes[i])] for every byte, then [btoa].  The
    code units are bytes, so [btoa] does not throw; [None] is kept for the
    exception all the same. *)
Definition binary_string (buffer : list byte) : jsstring := map Byte.to_N buffer.

Definition arrayBufferToBase64 (buffer : list byte) : option jsstring :=
  Base64.btoa (binary_string buffer).

Definition mime_candidates : list jsstring :=
  [lit "audio/webm;codecs=opus"; lit "audio/webm";
   lit "audio/ogg;codecs=opus"; lit "audio/ogg"].

(** [isTypeSupported] is the host's [MediaRecorder.isTypeSupported]. *)
Definition getSupportedMimeType (isTypeSupported : jsstring -> bool) : jsstring :=
  match find isTypeSupported mime_candidates with
  | Some t => t
  | None => []
  end.

Inductive recorder_state := Inactive | Recording | Paused.

(** A MediaRecorder object together with the variables its
    [ondataavailable] closure captured in startCapture. *)
Record recorder := {
  r_state : recorder_state;
  chunkIndex : nat;
  chunkStartSec : Z;
  chunkMs : Z;
  mimeType : jsstring;
}.

(** A MediaStream: its tracks. *)
Definition stream := list nat.

(** The [Audio] element used for live playback. *)
Record audio := { srcObject : option stream }.

Record state := {
  mediaRecorder : option nat;          (* index into [recorders] *)
  captureStream : option stream;
  liveAudio : option audio;
  webmHeader : option (list byte);
  recorders : list recorder;           (* host: recorders created so far *)
}.

Definition initial : state :=
  {| mediaRecorder := None; captureStream := None; liveAudio := None;
     webmHeader := None; recorders := [] |}.

Inductive message :=
| OFFSCREEN_READY
| AUDIO_CHUNK (chunk : jsstring) (metadata : chunk_metadata)
| CAPTURE_ERROR (error : jsstring).

Inductive effect :=
| SendMessage (m : message)            (* chrome.runtime.sendMessage *)
| Respond (success : bool) (error : option jsstring)   (* sendResponse *)
| GetUserMedia (streamId : jsstring)
| AudioPlay
| AudioPause
| RecorderStart (r : nat) (timeslice : Z)
| RecorderStop (r : nat)
| TrackStop (t : nat).

Definition set_webmHeader (h : option (list byte)) (s : state) : state :=
  {| mediaRecorder := mediaRecorder s; captureStream := captureStream s;
     liveAudio := liveAudio s; webmHeader := h; recorders := recorders s |}.

Definition set_recorders (rs : list recorder) (s : state) : state :=
  {| mediaRecorder := mediaRecorder s; captureStream := captureStream s;
     liveAudio := liveAudio s; webmHeader := webmHeader s; recorders := rs |}.

(** startCapture up to its first [await]. *)
Definition startCapture_begin (streamId : jsstring) (s : state)
  : state * list effect :=
  (set_webmHeader None s, [GetUserMedia streamId]).

(** startCapture after [getUserMedia] has settled.  A rejection ends the
    call with [success: false].  Both arms of the [try] around the
    MediaRecorder constructor yield a recorder whose handler closes over
    the same [mimeType] and [chunkMs]. *)
Definition startCapture_resume (isTypeSupported : jsstring -> bool)
    (config : start_config) (got : stream + jsstring) (s : state)
  : state * list effect :=
  match got with
  | inr err => (s, [Respond false (Some err)])
  | inl str =>
      let mime := getSupportedMimeType isTypeSupported in
      let ms := (match chunkSize config with
                 | Some n => if n =? 0 then 5 else n
                 | None => 5
                 end) * 1000 in
      let r := length (recorders s) in
      let rec := {| r_state := Recording; chunkIndex := 0; chunkStartSec := 0;
                    chunkMs := ms; mimeType := mime |} in
      ({| mediaRecorder := Some r; captureStream := Some str;
          liveAudio := Some {| srcObject := Some str |};
          webmHeader := webmHeader s;
          recorders := recorders s ++ [rec] |},
       [AudioPlay; RecorderStart r ms; Respond true None])
  end.

(** The header splicing of the handler: the bytes to send and the new
    value of [webmHeader]. *)
Definition splice (idx : nat) (hdr : option (list byte)) (arrayBuffer : list byte)
  : list byte * option (list byte) :=
  if (idx =? 0)%nat then
    let clusterOffset := findClusterOffset arrayBuffer in
    if 0 <? clusterOffset
    then (arrayBuffer, Some (take (Z.to_nat clusterOffset) arrayBuffer))
    else (arrayBuffer, hdr)
  else
    match hdr with
    | Some h => (h ++ arrayBuffer, hdr)
    | None => (arrayBuffer, hdr)
    end.

(** [mediaRecorder.ondataavailable] of recorder [r].  [data] is [e.data]
    ([None] when it is missing), given by the bytes of the blob.  The
    handler is run as one step: the blob read it awaits resolves before the
    next block is produced. *)
Definition ondataavailable (r : nat) (data : option (list byte)) (s : state)
  : state * list effect :=
  match data, recorders s !! r with
  | Some arrayBuffer, Some rec =>
      if (length arrayBuffer <? 1)%nat then (s, []) else
      let start := chunkStartSec rec in
      let end_ := start + chunkMs rec / 1000 in
      let '(dataToSend, hdr) := splice (chunkIndex rec) (webmHeader s) arrayBuffer in
      let s1 := set_webmHeader hdr s in
      match arrayBufferToBase64 dataToSend with
      | None =>
          (set_recorders
             (<[r := {| r_state := r_state rec; chunkIndex := chunkIndex rec;
                        chunkStartSec := end_; chunkMs := chunkMs rec;
                        mimeType := mimeType rec |}]> (recorders s)) s1, [])
      | Some base64String =>
          (set_recorders
             (<[r := {| r_state := r_state rec; chunkIndex := S (chunkIndex rec);
                        chunkStartSec := end_; chunkMs := chunkMs rec;
                        mimeType := mimeType rec |}]> (recorders s)) s1,
           [SendMessage (AUDIO_CHUNK base64String
              {| md_index := chunkIndex rec; md_start := start; md_end := end_;
                 md_mimeType := mimeType rec |})])
      end
  | _, _ => (s, [])
  end.

(** [mediaRecorder.onerror]: [e.error?.message || 'error']. *)
Definition onerror (message : option jsstring) : list effect :=
  [SendMessage (CAPTURE_ERROR
     (match message with
      | Some m => if bool_decide (m = []) then lit "error" else m
      | None => lit "error"
      end))].

Definition stopCapture (s : state) : state * list effect :=
  let stop_recorder :=
    match mediaRecorder s with
    | Some r =>
        match recorders s !! r with
        | Some rec =>
            match r_state rec with
            | Inactive => None
            | _ => Some (r, rec)
            end
        | None => None
        end
    | None => None
    end in
  let recs :=
    match stop_recorder with
    | Some (r, rec) =>
        <[r := {| r_state := Inactive; chunkIndex := chunkIndex rec;
                  chunkStartSec := chunkStartSec rec; chunkMs := chunkMs rec;
                  mimeType := mimeType rec |}]> (recorders s)
    | None => recorders s
    end in
  ({| mediaRecorder := None; captureStream := None; liveAudio := None;
      webmHeader := None; recorders := recs |},
   match stop_recorder with Some (r, _) => [RecorderStop r] | None => [] end
   ++ match liveAudio s with Some _ => [AudioPause] | None => [] end
   ++ match captureStream s with Some tracks => map TrackStop tracks | None => [] end).

(** The [chrome.runtime.onMessage] listener, for STOP_CAPTURE. *)
Definition onMessage_STOP_CAPTURE (s : state) : state * list effect :=
  let '(s', eff) := stopCapture s in (s', eff ++ [Respond true None]).

(** The blocks of one recorder, handled in the order produced. *)
Fixpoint run_blocks (r : nat) (blocks : list (option (list byte))) (s : state)
  : state * list effect :=
  match blocks with
  | [] => (s, [])
  | b :: rest =>
      let '(s1, e1) := ondataavailable r b s in
      let '(s2, e2) := run_blocks r rest s1 in
      (s2, e1 ++ e2)
  end.

(** The payloads of the AUDIO_CHUNK messages of a trace. *)
Definition sent_chunks (effs : list effect) : list jsstring :=
  omap (fun e => match e with
                 | SendMessage (AUDIO_CHUNK chunk _) => Some chunk
                 | _ => None
                 end) effs.

End Offscreen.

(* ================================================================== *)
(** * The controller: the service worker (background script) *)
Module Background.

Inductive ready_state := CONNECTING | OPEN | CLOSING | CLOSED.

(** Who waits for the promise returned by an openWebSocket call. *)
Inductive waiter :=
| StartCapture_await (rid : nat)   (* [await openWebSocket(cfg.wsUrl)] *)
| Reconnect_then.                  (* [.then(() => notifyStatus('reconnected', 'active')).catch(() => {})] *)

(** A WebSocket object with what the closures installed on it by
    openWebSocket captured: [url], [attempt], the timer [t] and the
    [resolve]/[reject] pair of the promise (settled at most once). *)
Record websocket := {
  ws_url : jsstring;
  ws_attempt : nat;
  ws_readyState : ready_state;
  ws_t : nat;
  ws_settled : bool;
  ws_waiter : waiter;
}.

(** Timer callbacks of the script. *)
Inductive callback :=
| ConnectTimeout (ws : nat)
    (* [() => { ws.close(); reject(new Error('timeout')); }] *)
| ReconnectNow (url : jsstring) (attempt : nat)
    (* [() => { if (!isRunning) return; openWebSocket(url, attempt + 1)... }] *)
| StartDelayOver (rid : nat).
    (* [resolve] of [new Promise(resolve => setTimeout(resolve, 200))] *)

Record timer := { delay : Z; cb : callback }.

(** Where a startCapture call is suspended. *)
Inductive stage :=
| AwaitTabsQuery
| AwaitExecuteScript
| AwaitWebSocket
| AwaitStreamId
| AwaitGetContexts
| AwaitCreateDocument
| AwaitDelay
| AwaitOffscreen.

#[global] Instance stage_eq_dec : EqDecision stage.
Proof. solve_decision. Defined.

Record task := {
  t_cfg : start_config;
  t_stage : stage;
  t_streamId : jsstring;
}.

Record state := {
  (* the module variables *)
  socket : option nat;
  currentTabId : option Z;
  config : option start_config;
  wsReconnectTimer : option nat;
  isRunning : bool;
  (* host objects *)
  sockets : list websocket;        (* every WebSocket constructed so far *)
  timers : gmap nat timer;         (* pending timers *)
  next_timer : nat;
  tasks : gmap nat task;           (* suspended startCapture calls *)
  next_task : nat;
}.

Definition initial : state :=
  {| socket := None; currentTabId := None; config := None;
     wsReconnectTimer := None; isRunning := false;
     sockets := []; timers := ∅; next_timer := 0; tasks := ∅; next_task := 0 |}.

(** Status texts are built by concatenation; the conversion of the
    non-literal operand to a string is left to the host. *)
Inductive status_text :=
| Text (s : jsstring)
| ReconnectingIn (delay_ms : Z)     (* ['reconnecting in ' + (delay/1000) + 's'] *)
| Prefixed (prefix : jsstring) (v : jsval).   (* [prefix + v] *)

Inductive runtime_message :=
| STATUS_UPDATE (text : status_text) (state_ : jsstring)
| STOP_CAPTURE
| START_CAPTURE (streamId : jsstring) (config : start_config)
| SUBTITLE_PREVIEW (text : jsval).

Inductive tab_message :=
| SUBTITLE (text start end_ : jsval)
| CLEAR_SUBTITLES.

Inductive storage_item :=
| Running (b : bool)
| LastSubtitle (text : jsval).

(** The two frames written for one chunk: the JSON record
    [{event:'chunk', index, start, end, mimeType}] and the bytes. *)
Inductive frame :=
| ChunkRecord (metadata : chunk_metadata)
| Binary (bytes : list byte).

Inductive effect :=
| RuntimeSend (m : runtime_message)          (* chrome.runtime.sendMessage *)
| TabsSend (tabId : Z) (m : tab_message)     (* chrome.tabs.sendMessage *)
| StorageSet (item : storage_item)           (* chrome.storage.local.set *)
| Respond (rid : nat) (ok : bool) (error : option jsstring)   (* sendResponse *)
| SocketSend (ws : nat) (f : frame)          (* socket.send *)
| TabsQuery
| ExecuteScript (tabId : Z)
| GetMediaStreamId (tabId : option Z)
| GetContexts
| CreateDocument.

(** ** Field updates *)

Definition set_socket (v : option nat) (s : state) : state :=
  {| socket := v; currentTabId := currentTabId s; config := config s;
     wsReconnectTimer := wsReconnectTimer s; isRunning := isRunning s;
     sockets := sockets s; timers := timers s; next_timer := next_timer s;
     tasks := tasks s; next_task := next_task s |}.

Definition set_currentTabId (v : option Z) (s : state) : state :=
  {| socket := socket s; currentTabId := v; config := config s;
     wsReconnectTimer := wsReconnectTimer s; isRunning := isRunning s;
     sockets := sockets s; timers := timers s; next_timer := next_timer s;
     tasks := tasks s; next_task := next_task s |}.

Definition set_config (v : option start_config) (s : state) : state :=
  {| socket := socket s; currentTabId := currentTabId s; config := v;
     wsReconnectTimer := wsReconnectTimer s; isRunning := isRunning s;
     sockets := sockets s; timers := timers s; next_timer := next_timer s;
     tasks := tasks s; next_task := next_task s |}.

Definition set_wsReconnectTimer (v : option nat) (s : state) : state :=
  {| socket := socket s; currentTabId := currentTabId s; config := config s;
     wsReconnectTimer := v; isRunning := isRunning s;
     sockets := sockets s; timers := timers s; next_timer := next_timer s;
     tasks := tasks s; next_task := next_task s |}.

Definition set_isRunning (v : bool) (s : state) : state :=
  {| socket := socket s; currentTabId := currentTabId s; config := config s;
     wsReconnectTimer := wsReconnectTimer s; isRunning := v;
     sockets := sockets s; timers := timers s; next_timer := next_timer s;
     tasks := tasks s; next_task := next_task s |}.

Definition set_sockets (v : list websocket) (s : state) : state :=
  {| socket := socket s; currentTabId := currentTabId s; config := config s;
     wsReconnectTimer := wsReconnectTimer s; isRunning := isRunning s;
     sockets := v; timers := timers s; next_timer := next_timer s;
     tasks := tasks s; next_task := next_task s |}.

Definition set_timers (v : gmap nat timer) (n : nat) (s : state) : state :=
  {| socket := socket s; currentTabId := currentTabId s; config := config s;
     wsReconnectTimer := wsReconnectTimer s; isRunning := isRunning s;
     sockets := sockets s; timers := v; next_timer := n;
     tasks := tasks s; next_task := next_task s |}.

Definition set_tasks (v : gmap nat task) (n : nat) (s : state) : state :=
  {| socket := socket s; currentTabId := currentTabId s; config := config s;
     wsReconnectTimer := wsReconnectTimer s; isRunning := isRunning s;
     sockets := sockets s; timers := timers s; next_timer := next_timer s;
     tasks := v; next_task := n |}.

Definition with_readyState (r : ready_state) (w : websocket) : websocket :=
  {| ws_url := ws_url w; ws_attempt := ws_attempt w; ws_readyState := r;
     ws_t := ws_t w; ws_settled := ws_settled w; ws_waiter := ws_waiter w |}.

Definition with_settled (w : websocket) : websocket :=
  {| ws_url := ws_url w; ws_attempt := ws_attempt w;
     ws_readyState := ws_readyState w;
     ws_t := ws_t w; ws_settled := true; ws_waiter := ws_waiter w |}.

Definition at_stage (st : stage) (k : task) : task :=
  {| t_cfg := t_cfg k; t_stage := st; t_streamId := t_streamId k |}.

(** ** Handlers as state transformers that also emit effects *)

Definition action := state -> state * list effect.

Definition skip : action := fun s => (s, []).
Definition emit (e : effect) : action := fun s => (s, [e]).
Definition update (f : state -> state) : action := fun s => (f s, []).
Definition read (k : state -> action) : action := fun s => k s s.
Definition andthen (a b : action) : action :=
  fun s => let r1 := a s in
           let r2 := b r1.1 in (r2.1, r1.2 ++ r2.2).

Declare Scope action_scope.
Delimit Scope action_scope with act.
Bind Scope action_scope with action.
Notation "a >> b" := (andthen a b) (at level 61, left associativity) : action_scope.
Local Open Scope action_scope.

(** ** Host primitives *)

(** [setTimeout(cb, delay)]; the identifier returned is [next_timer]
    of the state it is called in. *)
Definition setTimeout (c : callback) (d : Z) : action :=
  update (fun s => set_timers (<[next_timer s := {| delay := d; cb := c |}]> (timers s))
                              (S (next_timer s)) s).

(** [clearTimeout(id)]; [null] and identifiers of timers that are no
    longer pending are ignored. *)
Definition clearTimeout (id : option nat) : action :=
  update (fun s => match id with
                   | Some t => set_timers (delete t (timers s)) (next_timer s) s
                   | None => s
                   end).

(** [ws.close()]: a socket that is connecting or open starts closing. *)
Definition ws_close (w : nat) : action :=
  update (fun s => set_sockets
    (alter (fun ws => match ws_readyState ws with
                      | CONNECTING | OPEN => with_readyState CLOSING ws
                      | _ => ws
                      end) w (sockets s)) s).

(** ** The script *)

Definition notifyStatus (text : status_text) (state_ : string) : action :=
  emit (RuntimeSend (STATUS_UPDATE text (lit state_))).

Definition stopCapture (reason : string) : action :=
  update (set_isRunning false) >>
  read (fun s => clearTimeout (wsReconnectTimer s)) >>
  emit (RuntimeSend STOP_CAPTURE) >>
  read (fun s => match socket s with
                 | Some w => ws_close w >> update (set_socket None)
                 | None => skip
                 end) >>
  emit (StorageSet (Running false)) >>
  read (fun s => match currentTabId s with
                 | Some id => if id =? 0 then skip
                              else emit (TabsSend id CLEAR_SUBTITLES)
                 | None => skip
                 end).

(** The delay of ws.onclose: [Math.min(2000 * 2 ** attempt, 12000)].
    The product is exact in double precision until it overflows to
    Infinity, where the minimum is 12000 as well. *)
Definition reconnect_delay (attempt : nat) : Z :=
  Z.min (2000 * 2 ^ Z.of_nat attempt) 12000.

Definition set_stage (rid : nat) (st : stage) : action :=
  update (fun s => set_tasks (alter (at_stage st) rid (tasks s)) (next_task s) s).

(** startCapture throws [new Error(message)]: the listener answers
    [{ ok: false, error: e.message }]. *)
Definition startCapture_throw (rid : nat) (message : jsstring) : action :=
  update (fun s => set_tasks (delete rid (tasks s)) (next_task s) s) >>
  emit (Respond rid false (Some message)).

(** The executor of the promise of [openWebSocket(url, attempt)].
    [new WebSocket(url)] throws a SyntaxError for a [url] the host cannot
    parse or whose scheme is not a WebSocket scheme; [thrown] is the
    message of that exception, [None] when the constructor accepts the
    [url].  An exception in the executor rejects the promise before
    [socket = ws] and before the timer is set: the waiter runs with the
    error and nothing else has happened. *)
Definition openWebSocket (thrown : option jsstring) (url : jsstring)
    (attempt : nat) (k : waiter) : action :=
  match thrown with
  | Some message =>
      match k with
      | StartCapture_await rid => startCapture_throw rid message
      | Reconnect_then => skip
      end
  | None =>
      read (fun s =>
        let w := length (sockets s) in
        update (set_sockets (sockets s ++
                  [{| ws_url := url; ws_attempt := attempt;
                      ws_readyState := CONNECTING; ws_t := next_timer s;
                      ws_settled := false; ws_waiter := k |}])) >>
        update (set_socket (Some w)) >>
        setTimeout (ConnectTimeout w) 7000)
  end.

(** startCapture from [await openWebSocket(cfg.wsUrl)] to the next await. *)
Definition startCapture_connected (rid : nat) : action :=
  read (fun s => emit (GetMediaStreamId (currentTabId s))) >>
  set_stage rid AwaitStreamId.

(** [resolve(ws)] ([outcome = None]) or [reject(new Error(m))]
    ([outcome = Some m]) of the promise of socket [w]; only the first
    call settles the promise, and the waiter then runs. *)
Definition settle (w : nat) (outcome : option jsstring) : action :=
  read (fun s =>
    match sockets s !! w with
    | Some ws =>
        if ws_settled ws then skip else
        update (fun s => set_sockets (alter with_settled w (sockets s)) s) >>
        match ws_waiter ws, outcome with
        | StartCapture_await rid, None => startCapture_connected rid
        | StartCapture_await rid, Some m => startCapture_throw rid m
        | Reconnect_then, None => notifyStatus (Text (lit "reconnected")) "active"
        | Reconnect_then, Some _ => skip
        end
    | None => skip
    end).

Definition ws_onopen (w : nat) : action :=
  read (fun s => clearTimeout (ws_t <$> sockets s !! w)) >>
  notifyStatus (Text (lit "connected")) "active" >>
  settle w None.

Definition ws_onerror (w : nat) : action :=
  read (fun s => clearTimeout (ws_t <$> sockets s !! w)) >>
  settle w (Some (lit "failed")).

Definition connect_timeout (w : nat) : action :=
  ws_close w >> settle w (Some (lit "timeout")).

Definition ws_onclose (w : nat) : action :=
  read (fun s =>
    match sockets s !! w with
    | Some ws =>
        if negb (isRunning s) then skip else
        let delay := reconnect_delay (ws_attempt ws) in
        notifyStatus (ReconnectingIn delay) "error" >>
        read (fun s' =>
          setTimeout (ReconnectNow (ws_url ws) (ws_attempt ws)) delay >>
          update (set_wsReconnectTimer (Some (next_timer s'))))
    | None => skip
    end).

(** The callback of the backoff timer.  [url] is the string the
    constructor accepted when the connection that closed was made, so
    the constructor accepts it again. *)
Definition reconnect_now (url : jsstring) (attempt : nat) : action :=
  read (fun s =>
    if negb (isRunning s) then skip
    else openWebSocket None url (attempt + 1) Reconnect_then).

(** [parsed] is the result of [JSON.parse(event.data)], [None] when it
    throws.  A TypeError ends the handler where it is raised. *)
Definition handleServerMessage (parsed : option jsval) : action :=
  match parsed with
  | None => skip
  | Some msg =>
      match get_field (lit "event") msg, get_field (lit "text") msg with
      | Some ev, Some text =>
          let relay :=
            read (fun s =>
              match currentTabId s with
              | Some tab =>
                  emit (TabsSend tab
                          (SUBTITLE text
                             (default VUndefined (get_field (lit "start") msg))
                             (default VUndefined (get_field (lit "end") msg)))) >>
                  emit (RuntimeSend (SUBTITLE_PREVIEW text)) >>
                  emit (StorageSet (LastSubtitle text))
              | None => skip      (* tabs.sendMessage rejects the tab id *)
              end) in
          let report :=
            if is_str ev (lit "error")
            then notifyStatus
                   (Prefixed (lit "backend: ")
                      (default VUndefined (get_field (lit "message") msg))) "error"
            else skip in
          if is_str ev (lit "subtitle") && truthy text then
            match text with
            | VStr t => if truthy (VStr (trim t)) then relay >> report else report
            | _ => skip           (* msg.text.trim is not a function *)
            end
          else report
      | _, _ => skip              (* msg is null *)
      end
  end.

(** [bytes[i] = binaryString.charCodeAt(i)] into a Uint8Array. *)
Definition to_uint8 (c : N) : byte :=
  default x00 (Byte.of_N (c mod 256)%N).

Definition handleAudioChunk (chunkBase64 : jsstring) (metadata : chunk_metadata)
  : action :=
  read (fun s =>
    match socket s with
    | Some w =>
        match ws_readyState <$> sockets s !! w with
        | Some OPEN =>
            match Base64.atob chunkBase64 with
            | Some binaryString =>
                let bytes := map to_uint8 binaryString in
                emit (SocketSend w (ChunkRecord metadata)) >>
                emit (SocketSend w (Binary bytes))
            | None => skip        (* atob throws *)
            end
        | _ => skip
        end
    | None => skip
    end).

(** startCapture up to its first await; [rid] names the call. *)
Definition startCapture (rid : nat) (cfg : start_config) : action :=
  read (fun s => if isRunning s then stopCapture "restart" else skip) >>
  update (set_config (Some cfg)) >>
  update (set_isRunning true) >>
  emit TabsQuery >>
  update (fun s => set_tasks
    (<[rid := {| t_cfg := cfg; t_stage := AwaitTabsQuery; t_streamId := [] |}]>
       (tasks s)) (next_task s) s).

(** A suspended startCapture call is resumed only by the settlement it
    waits for. *)
Definition resume (rid : nat) (st : stage) (k : task -> action) : action :=
  read (fun s =>
    match tasks s !! rid with
    | Some tk => if bool_decide (t_stage tk = st) then k tk else skip
    | None => skip
    end).

(** After the socket is open and the stream id is known:
    setupOffscreenDocument, then the 200 ms pause. *)
Definition startCapture_pause (rid : nat) : action :=
  setTimeout (StartDelayOver rid) 200 >> set_stage rid AwaitDelay.

(** [lastError?.message || 'failed'] and the like. *)
Definition or_else (m : option jsstring) (d : string) : jsstring :=
  match m with
  | Some t => if bool_decide (t = []) then lit d else t
  | None => lit d
  end.

Inductive event :=
(* chrome.runtime.onMessage *)
| MsgSTART_CAPTURE (cfg : start_config)
| MsgSTOP_CAPTURE
| MsgAUDIO_CHUNK (chunk : jsstring) (metadata : chunk_metadata)
| MsgCAPTURE_ERROR (error : jsval)
(* chrome.tabs.onRemoved, chrome.tabs.onUpdated *)
| TabRemoved (id : Z)
| TabUpdated (id : Z) (status : jsstring)
(* settlements of the promises a startCapture call awaits; [inr] is a
   rejection with its message *)
| TabsQueried (rid : nat) (tab : option Z + jsstring)
| ScriptInjected (rid : nat) (thrown : option jsstring)
    (* executeScript has settled (a rejection is caught); [thrown] is the
       message of what [new WebSocket(cfg.wsUrl)], called next, throws,
       [None] when the constructor accepts the url *)
| StreamIdResult (rid : nat) (lastError : option jsstring) (id : option jsstring)
| ContextsResult (rid : nat) (existing : nat + jsstring)
| DocumentCreated (rid : nat) (failure : option jsstring)
| OffscreenReplied (rid : nat) (result : option (bool * option jsstring) + jsstring)
(* WebSocket events *)
| WsOpen (ws : nat)
| WsError (ws : nat)
| WsClose (ws : nat)
| WsMessage (ws : nat) (parsed : option jsval)
(* a pending timer expires *)
| TimerFired (t : nat).

(** One turn of the event loop.  The host raises the events of a socket
    in the order its ready state allows. *)
Definition step (ev : event) : action :=
  match ev with
  | MsgSTART_CAPTURE cfg =>
      read (fun s =>
        update (fun s => set_tasks (tasks s) (S (next_task s)) s) >>
        startCapture (next_task s) cfg)
  | MsgSTOP_CAPTURE =>
      read (fun s =>
        update (fun s => set_tasks (tasks s) (S (next_task s)) s) >>
        stopCapture "manual" >> emit (Respond (next_task s) true None))
  | MsgAUDIO_CHUNK chunk metadata => handleAudioChunk chunk metadata
  | MsgCAPTURE_ERROR error =>
      notifyStatus (Prefixed (lit "capture error: ") error) "error"
  | TabRemoved id =>
      read (fun s => if bool_decide (Some id = currentTabId s)
                     then stopCapture "tab closed" else skip)
  | TabUpdated id status =>
      read (fun s => if bool_decide (Some id = currentTabId s)
                        && bool_decide (status = lit "loading")
                     then stopCapture "tab navigated" else skip)
  | TabsQueried rid r =>
      resume rid AwaitTabsQuery (fun tk =>
        match r with
        | inr m => startCapture_throw rid m
        | inl None => startCapture_throw rid (lit "No active tab found")
        | inl (Some id) =>
            update (set_currentTabId (Some id)) >>
            emit (ExecuteScript id) >>
            set_stage rid AwaitExecuteScript
        end)
  | ScriptInjected rid thrown =>
      resume rid AwaitExecuteScript (fun tk =>
        set_stage rid AwaitWebSocket >>
        openWebSocket thrown (wsUrl (t_cfg tk)) 0 (StartCapture_await rid))
  | StreamIdResult rid lastError id =>
      resume rid AwaitStreamId (fun tk =>
        match lastError, id with
        | None, Some i =>
            if bool_decide (i = []) then startCapture_throw rid (lit "failed")
            else
              update (fun s => set_tasks
                (alter (fun k => {| t_cfg := t_cfg k; t_stage := AwaitGetContexts;
                                    t_streamId := i |}) rid (tasks s))
                (next_task s) s) >>
              emit GetContexts
        | _, _ => startCapture_throw rid (or_else lastError "failed")
        end)
  | ContextsResult rid r =>
      resume rid AwaitGetContexts (fun tk =>
        match r with
        | inr m => startCapture_throw rid m
        | inl O => emit CreateDocument >> set_stage rid AwaitCreateDocument
        | inl (S _) => startCapture_pause rid
        end)
  | DocumentCreated rid failure =>
      resume rid AwaitCreateDocument (fun tk =>
        match failure with
        | Some m => startCapture_throw rid m
        | None => startCapture_pause rid
        end)
  | OffscreenReplied rid r =>
      resume rid AwaitOffscreen (fun tk =>
        match r with
        | inr m => startCapture_throw rid m
        | inl (Some (true, _)) =>
            notifyStatus (Text (lit "live")) "active" >>
            emit (StorageSet (Running true)) >>
            update (fun s => set_tasks (delete rid (tasks s)) (next_task s) s) >>
            emit (Respond rid true None)
        | inl (Some (false, e)) =>
            startCapture_throw rid (lit "Offscreen failed: " ++ or_else e "no response")
        | inl None =>
            startCapture_throw rid (lit "Offscreen failed: no response")
        end)
  | WsOpen w =>
      read (fun s =>
        match ws_readyState <$> sockets s !! w with
        | Some CONNECTING =>
            update (fun s => set_sockets (alter (with_readyState OPEN) w (sockets s)) s) >>
            ws_onopen w
        | _ => skip
        end)
  | WsError w =>
      read (fun s =>
        match ws_readyState <$> sockets s !! w with
        | Some CLOSED | None => skip
        | Some _ => ws_onerror w
        end)
  | WsClose w =>
      read (fun s =>
        match ws_readyState <$> sockets s !! w with
        | Some CLOSED | None => skip
        | Some _ =>
            update (fun s => set_sockets (alter (with_readyState CLOSED) w (sockets s)) s) >>
            ws_onclose w
        end)
  | WsMessage w parsed =>
      read (fun s =>
        match ws_readyState <$> sockets s !! w with
        | Some OPEN => handleServerMessage parsed
        | _ => skip
        end)
  | TimerFired t =>
      read (fun s =>
        match timers s !! t with
        | Some tm =>
            update (fun s => set_timers (delete t (timers s)) (next_timer s) s) >>
            match cb tm with
            | ConnectTimeout w => connect_timeout w
            | ReconnectNow url attempt => reconnect_now url attempt
            | StartDelayOver rid =>
                resume rid AwaitDelay (fun tk =>
                  emit (RuntimeSend (START_CAPTURE (t_streamId tk) (t_cfg tk))) >>
                  set_stage rid AwaitOffscreen)
            end
        | None => skip
        end)
  end.

Fixpoint run (evs : list event) : action :=
  match evs with
  | [] => skip
  | ev :: rest => step ev >> run rest
  end.

End Background.

(* ================================================================== *)
(** * The caption overlay: extension/contentScript.js *)
Module ContentScript.

(** The overlay and the timers of the page.  The only timer callback of
    the script is [() => root.classList.remove('hls-visible')]; a pending
    timer is recorded with the time (ms) at which it is due. *)
Record state := {
  hls_visible : bool;             (* root.classList has 'hls-visible' *)
  hls_pos_top : bool;             (* ... 'hls-pos-top' *)
  hls_pos_center : bool;          (* ... 'hls-pos-center' *)
  textContent : jsstring;         (* inner.textContent *)
  style_fontSize : option Z;      (* inner.style.fontSize, in px *)
  hideTimer : option nat;
  timers : gmap nat Z;
  next_timer : nat;
}.

Definition initial : state :=
  {| hls_visible := false; hls_pos_top := false; hls_pos_center := false;
     textContent := []; style_fontSize := None; hideTimer := None;
     timers := ∅; next_timer := 0 |}.

Inductive message :=
| SUBTITLE (text : jsval)
| CLEAR_SUBTITLES
| UPDATE_DISPLAY (fontSize : option Z) (overlayPos : jsstring).

Inductive event :=
| Message (msg : message)
| TimerFired (t : nat).

(** [Math.max(2500, text.length * 55)] *)
Definition durationMs (text : jsstring) : Z :=
  Z.max 2500 (Z.of_nat (length text) * 55).

Definition clearTimeout (id : option nat) (tm : gmap nat Z) : gmap nat Z :=
  match id with
  | Some t => delete t tm
  | None => tm
  end.

Definition showSubtitle (now : Z) (text : jsstring) (s : state) : state :=
  {| hls_visible := true;
     hls_pos_top := hls_pos_top s; hls_pos_center := hls_pos_center s;
     textContent := text;
     style_fontSize := style_fontSize s;
     hideTimer := Some (next_timer s);
     timers := <[next_timer s := now + durationMs text]>
                 (clearTimeout (hideTimer s) (timers s));
     next_timer := S (next_timer s) |}.

Definition clearSubtitles (s : state) : state :=
  {| hls_visible := false;
     hls_pos_top := hls_pos_top s; hls_pos_center := hls_pos_center s;
     textContent := [];
     style_fontSize := style_fontSize s;
     hideTimer := hideTimer s;
     timers := clearTimeout (hideTimer s) (timers s);
     next_timer := next_timer s |}.

Definition applySettings (fontSize : option Z) (overlayPos : jsstring) (s : state)
  : state :=
  let positioned := negb (bool_decide (overlayPos = [])) in
  {| hls_visible := hls_visible s;
     hls_pos_top := if positioned then bool_decide (overlayPos = lit "top")
                    else hls_pos_top s;
     hls_pos_center := if positioned then bool_decide (overlayPos = lit "center")
                       else hls_pos_center s;
     textContent := textContent s;
     style_fontSize := match fontSize with
                       | Some n => if n =? 0 then style_fontSize s else Some n
                       | None => style_fontSize s
                       end;
     hideTimer := hideTimer s;
     timers := timers s;
     next_timer := next_timer s |}.

(** The [chrome.runtime.onMessage] listener, run at time [now]. *)
Definition onMessage (now : Z) (msg : message) (s : state) : state :=
  match msg with
  | SUBTITLE text =>
      match text with
      | VStr t => if truthy (VStr (trim t)) then showSubtitle now (trim t) s else s
      | _ => s      (* undefined/null: skipped; otherwise trim is not a function *)
      end
  | CLEAR_SUBTITLES => clearSubtitles s
  | UPDATE_DISPLAY fontSize overlayPos => applySettings fontSize overlayPos s
  end.

(** A timer fires once it is due and still pending. *)
Definition fire (now : Z) (t : nat) (s : state) : state :=
  match timers s !! t with
  | Some due =>
      if due <=? now then
        {| hls_visible := false;
           hls_pos_top := hls_pos_top s; hls_pos_center := hls_pos_center s;
           textContent := textContent s;
           style_fontSize := style_fontSize s;
           hideTimer := hideTimer s;
           timers := delete t (timers s);
           next_timer := next_timer s |}
      else s
  | None => s
  end.

Definition step (now : Z) (ev : event) (s : state) : state :=
  match ev with
  | Message msg => onMessage now msg s
  | TimerFired t => fire now t s
  end.

End ContentScript.

(* ================================================================== *)
(** * Vocabulary of the statements *)

(** The block contains the marker at byte offset [k]. *)
Definition occurs_at (block : list byte) (k : nat) : Prop :=
  exists pre post, block = pre ++ Offscreen.cluster_id ++ post /\ length pre = k.

(** The marker the byte-for-byte scan meets first is at offset [k]. *)
Definition first_at (block : list byte) (k : nat) : Prop :=
  occurs_at block k /\ forall j, (j < k)%nat -> ~ occurs_at block j.

Definition absent (block : list byte) : Prop :=
  forall j, ~ occurs_at block j.

(** The base64 text of a buffer. *)
Definition base64_of (buffer : list byte) : jsstring :=
  Base64.encode (Offscreen.binary_string buffer).

(** The recorder after one more block has been sent. *)
Definition advance (rec : Offscreen.recorder) : Offscreen.recorder :=
  {| Offscreen.r_state := Offscreen.r_state rec;
     Offscreen.chunkIndex := S (Offscreen.chunkIndex rec);
     Offscreen.chunkStartSec :=
       Offscreen.chunkStartSec rec + Offscreen.chunkMs rec / 1000;
     Offscreen.chunkMs := Offscreen.chunkMs rec;
     Offscreen.mimeType := Offscreen.mimeType rec |}.

Section Sextets.
Local Open Scope N_scope.

(** The 6-bit groups of a byte sequence, before they are mapped to the
    alphabet and padded. *)
Fixpoint sextets (l : list N) : list N :=
  match l with
  | [] => []
  | [a] => [a / 4; (a mod 4) * 16]
  | [a; b] => [a / 4; (a mod 4) * 16 + b / 16; (b mod 16) * 4]
  | a :: b :: c :: rest =>
      a / 4 :: (a mod 4) * 16 + b / 16 :: (b mod 16) * 4 + c / 64 :: c mod 64
      :: sextets rest
  end.

End Sextets.

(** Any event but a new start request. *)
Definition not_a_start (ev : Background.event) : Prop :=
  forall cfg, ev <> Background.MsgSTART_CAPTURE cfg.

(** States of the overlay as the script produces them: the only timer
    that can be pending is the one recorded in [hideTimer], and timer
    identifiers are fresh. *)
Definition overlay_ok (s : ContentScript.state) : Prop :=
  (forall t due, ContentScript.timers s !! t = Some due ->
                 ContentScript.hideTimer s = Some t) /\
  (forall t, ContentScript.hideTimer s = Some t ->
             (t < ContentScript.next_timer s)%nat).

(* ================================================================== *)
(** * Sample runs used to instantiate the statements below *)

Definition sample_config : start_config :=
  {| chunkSize := Some 5; modelSize := lit "small"; overlayPos := lit "bottom";
     fontSize := Some 28; wsUrl := lit "ws://localhost:8000/ws/translate" |}.

(** The capturer right after a successful startCapture. *)
Definition capturing : Offscreen.state :=
  (Offscreen.startCapture_resume (fun _ => true) sample_config (inl [7%nat])
     (Offscreen.startCapture_begin (lit "stream-1") Offscreen.initial).1).1.

(** Its recorder: nothing sent yet. *)
Definition fresh_recorder : Offscreen.recorder :=
  {| Offscreen.r_state := Offscreen.Recording; Offscreen.chunkIndex := 0;
     Offscreen.chunkStartSec := 0; Offscreen.chunkMs := 5000;
     Offscreen.mimeType := lit "audio/webm;codecs=opus" |}.

(** The first socket of the controller once it is open. *)
Definition open_socket : Background.websocket :=
  {| Background.ws_url := wsUrl sample_config; Background.ws_attempt := 0;
     Background.ws_readyState := Background.OPEN; Background.ws_t := 0;
     Background.ws_settled := true;
     Background.ws_waiter := Background.StartCapture_await 0 |}.

(** The controller while startCapture waits for the content script to
    be injected. *)
Definition injecting : Background.state :=
  (Background.run
     [Background.MsgSTART_CAPTURE sample_config;
      Background.TabsQueried 0 (inl (Some 7))] Background.initial).1.

(** The first socket of the controller while it is connecting. *)
Definition first_socket : Background.websocket :=
  {| Background.ws_url := wsUrl sample_config; Background.ws_attempt := 0;
     Background.ws_readyState := Background.CONNECTING; Background.ws_t := 0;
     Background.ws_settled := false;
     Background.ws_waiter := Background.StartCapture_await 0 |}.

(** The controller after start, up to the moment its socket is open. *)
Definition connecting : Background.state :=
  (Background.run
     [Background.MsgSTART_CAPTURE sample_config;
      Background.TabsQueried 0 (inl (Some 7));
      Background.ScriptInjected 0 None] Background.initial).1.

Definition connected : Background.state :=
  (Background.step (Background.WsOpen 0) connecting).1.

(** The controller once capture is live. *)
Definition live : Background.state :=
  (Background.run
     [Background.StreamIdResult 0 None (Some (lit "stream-1"));
      Background.ContextsResult 0 (inl 0%nat);
      Background.DocumentCreated 0 None;
      Background.TimerFired 1;
      Background.OffscreenReplied 0 (inl (Some (true, None)))] connected).1.

(** The socket of the live session has dropped: a reconnect is pending. *)
Definition dropped : Background.state :=
  (Background.step (Background.WsClose 0) live).1.

(** The overlay while a first, ten-character caption is shown. *)
Definition showing : ContentScript.state :=
  ContentScript.step 0
    (ContentScript.Message (ContentScript.SUBTITLE (VStr (lit "Hello you!"))))
    ContentScript.initial.

(** The socket drops, the backoff timer fires, the new socket opens. *)
Definition reconnected : Background.state :=
  (Background.run
     [Background.WsClose 0; Background.TimerFired 1; Background.WsOpen 1]
     connected).1.

(* ================================================================== *)
(** * The popup (popup.js)

    The popup window drives start and stop and shows what the controller
    broadcasts.  Its state is the part of its document the handlers
    write, and the module variable [subtitleReceivedAt].  What the
    handlers read from the form (the values of the inputs, with
    [parseInt] applied by the host) comes with the click. *)

Module Popup.

(** [latLabel.textContent]: ['— ms'] or [ms + ' ms']. *)
Inductive label :=
| Dash
| Millis (ms : Z).

(** [latBar.style.width]: ['0'] or
    [Math.min(100, (ms / 10000) * 100) + '%'].  The style object keeps
    only a width it can parse: a negative percentage is ignored and the
    bar keeps the width it had. *)
Inductive width :=
| Zero
| Percent (ms : Z).

Record state := {
  btnStart_disabled : bool;
  btnStop_disabled : bool;
  chunkInput_disabled : bool;
  modelSel_disabled : bool;
  wsUrlInput_disabled : bool;
  statusText : Background.status_text;
  dot_className : jsstring;
  previewEl : jsval;
  latLabel : label;
  latBar_width : width;
  latBar_background : jsstring;
  subtitleReceivedAt : Z;
}.

Inductive effect :=
| StorageSyncSet (cfg : start_config)       (* chrome.storage.sync.set *)
| SendSTART_CAPTURE (cfg : start_config)    (* chrome.runtime.sendMessage *)
| SendSTOP_CAPTURE.

Definition setRunningUI (running : bool) (s : state) : state :=
  {| btnStart_disabled := running;
     btnStop_disabled := negb running;
     chunkInput_disabled := running;
     modelSel_disabled := running;
     wsUrlInput_disabled := running;
     statusText := statusText s; dot_className := dot_className s;
     previewEl := previewEl s; latLabel := latLabel s;
     latBar_width := latBar_width s;
     latBar_background := latBar_background s;
     subtitleReceivedAt := subtitleReceivedAt s |}.

Definition setStatus (text : Background.status_text) (state_ : jsstring)
    (s : state) : state :=
  {| btnStart_disabled := btnStart_disabled s;
     btnStop_disabled := btnStop_disabled s;
     chunkInput_disabled := chunkInput_disabled s;
     modelSel_disabled := modelSel_disabled s;
     wsUrlInput_disabled := wsUrlInput_disabled s;
     statusText := text;
     dot_className :=
       lit "dot" ++ (if bool_decide (state_ = []) then []
                     else lit " " ++ state_);
     previewEl := previewEl s; latLabel := latLabel s;
     latBar_width := latBar_width s;
     latBar_background := latBar_background s;
     subtitleReceivedAt := subtitleReceivedAt s |}.

Definition setLatency (ms : option Z) (s : state) : state :=
  {| btnStart_disabled := btnStart_disabled s;
     btnStop_disabled := btnStop_disabled s;
     chunkInput_disabled := chunkInput_disabled s;
     modelSel_disabled := modelSel_disabled s;
     wsUrlInput_disabled := wsUrlInput_disabled s;
     statusText := statusText s; dot_className := dot_className s;
     previewEl := previewEl s;
     latLabel := match ms with None => Dash | Some ms => Millis ms end;
     latBar_width :=
       match ms with
       | None => Zero
       | Some ms => if ms <? 0 then latBar_width s else Percent ms
       end;
     latBar_background :=
       match ms with
       | None => latBar_background s
       | Some ms => if ms <? 3000 then lit "#4af0a8"
                    else if ms <? 8000 then lit "#f59e0b"
                    else lit "#f43f5e"
       end;
     subtitleReceivedAt := subtitleReceivedAt s |}.

Definition set_previewEl (v : jsval) (s : state) : state :=
  {| btnStart_disabled := btnStart_disabled s;
     btnStop_disabled := btnStop_disabled s;
     chunkInput_disabled := chunkInput_disabled s;
     modelSel_disabled := modelSel_disabled s;
     wsUrlInput_disabled := wsUrlInput_disabled s;
     statusText := statusText s; dot_className := dot_className s;
     previewEl := v; latLabel := latLabel s;
     latBar_width := latBar_width s;
     latBar_background := latBar_background s;
     subtitleReceivedAt := subtitleReceivedAt s |}.

Definition set_subtitleReceivedAt (v : Z) (s : state) : state :=
  {| btnStart_disabled := btnStart_disabled s;
     btnStop_disabled := btnStop_disabled s;
     chunkInput_disabled := chunkInput_disabled s;
     modelSel_disabled := modelSel_disabled s;
     wsUrlInput_disabled := wsUrlInput_disabled s;
     statusText := statusText s; dot_className := dot_className s;
     previewEl := previewEl s; latLabel := latLabel s;
     latBar_width := latBar_width s;
     latBar_background := latBar_background s;
     subtitleReceivedAt := v |}.

(** [wsUrlInput.value.trim() || 'ws://localhost:8000/ws/translate'] *)
Definition url_or_default (value : jsstring) : jsstring :=
  if bool_decide (trim value = []) then lit "ws://localhost:8000/ws/translate"
  else trim value.

Inductive event :=
(* a click on Start, with the values of the form at that moment *)
| StartClicked (chunk_value : option Z) (model_value pos_value : jsstring)
    (font_value : option Z) (url_value : jsstring)
(* the callback of the START_CAPTURE message: [chrome.runtime.lastError]
   and the response, if any, with its [ok] and [error] *)
| StartAnswered (lastError : bool) (resp : option (bool * option jsstring))
(* a click on Stop *)
| StopClicked
(* chrome.runtime.onMessage, handled at time [now] *)
| Received (msg : Background.runtime_message) (now : Z)
(* the callback of chrome.storage.local.get(['running']) *)
| RunningRead (running : option bool).

Definition step (ev : event) (s : state) : state * list effect :=
  match ev with
  | StartClicked chunk_value model_value pos_value font_value url_value =>
      let cfg := {| chunkSize := chunk_value; modelSize := model_value;
                    overlayPos := pos_value; fontSize := font_value;
                    wsUrl := url_or_default url_value |} in
      (setRunningUI true
         (setStatus (Background.Text (lit "connecting" ++ [0x2026%N]))
            (lit "active") s),
       [StorageSyncSet cfg; SendSTART_CAPTURE cfg])
  | StartAnswered lastError resp =>
      if lastError || negb (match resp with Some (ok, _) => ok | None => false end)
      then
        (setRunningUI false
           (setStatus
              (Background.Text
                 (lit "error: " ++
                  match resp with
                  | Some (_, Some error) => error
                  | _ => lit "check backend"
                  end))
              (lit "error") s), [])
      else (s, [])
  | StopClicked =>
      (setLatency None
         (setStatus (Background.Text (lit "stopped")) []
            (setRunningUI false s)),
       [SendSTOP_CAPTURE])
  | Received msg now =>
      match msg with
      | Background.STATUS_UPDATE text state_ => (setStatus text state_ s, [])
      | Background.SUBTITLE_PREVIEW text =>
          let s1 := set_previewEl text s in
          let s2 := if 0 <? subtitleReceivedAt s1
                    then setLatency (Some (now - subtitleReceivedAt s1)) s1
                    else s1 in
          (set_subtitleReceivedAt now s2, [])
      | _ => (s, [])
      end
  | RunningRead running =>
      (match running with
       | Some true => setRunningUI true s
       | _ => s
       end, [])
  end.

Definition run (evs : list event) (s : state) : state :=
  fold_left (fun st ev => (step ev st).1) evs s.

End Popup.

(* ================================================================== *)
(** * Further vocabulary: segments, retries, traces *)

(** The metadata records of the AUDIO_CHUNK messages of a trace. *)
Definition sent_metadata (effs : list Offscreen.effect) : list chunk_metadata :=
  omap (fun e => match e with
                 | Offscreen.SendMessage (Offscreen.AUDIO_CHUNK _ metadata) =>
                     Some metadata
                 | _ => None
                 end) effs.

(** The metadata of the [i]-th segment a recorder sends from now on:
    indices count up from [chunkIndex], each segment spans
    [chunkMs / 1000] seconds and starts where the previous one ends. *)
Definition segment_metadata (rec : Offscreen.recorder) (i : nat) : chunk_metadata :=
  {| md_index := Offscreen.chunkIndex rec + i;
     md_start := Offscreen.chunkStartSec rec
                 + Z.of_nat i * (Offscreen.chunkMs rec / 1000);
     md_end := Offscreen.chunkStartSec rec
               + (Z.of_nat i + 1) * (Offscreen.chunkMs rec / 1000);
     md_mimeType := Offscreen.mimeType rec |}.

(** The capturer after a first block with the marker at offset 2: the
    header is cached and one segment has been sent. *)
Definition spliced : Offscreen.state :=
  (Offscreen.ondataavailable 0 (Some [x1a; x45; x1f; x43; xb6; x75; x80])
     capturing).1.


(** [n] failed connection cycles in a row, starting with the close of
    socket [w]: each time the socket closes and the backoff timer the
    close handler has just set fires.  The result is the socket in
    charge afterwards and the state. *)
Fixpoint fail_cycles (n : nat) (w : nat) (s : Background.state)
  : nat * Background.state :=
  match n with
  | O => (w, s)
  | S n' =>
      fail_cycles n' (length (Background.sockets s))
        (Background.run
           [Background.WsClose w;
            Background.TimerFired (Background.next_timer s)] s).1
  end.

(** The module variable [socket] refers to the WebSocket constructed
    last, if to any. *)
Definition socket_is_newest (s : Background.state) : Prop :=
  match Background.socket s with
  | Some w => S w = length (Background.sockets s)
  | None => True
  end.

(** A frame written to a socket. *)
Definition is_frame (e : Background.effect) : bool :=
  match e with
  | Background.SocketSend _ _ => true
  | _ => false
  end.

(** Controller states with nothing going on: not running, no
    startCapture call suspended, no socket referenced. *)
Definition idle (s : Background.state) : Prop :=
  Background.isRunning s = false /\ Background.tasks s = ∅ /\
  Background.socket s = None.

(** The controller while startCapture waits for the tab query. *)
Definition querying : Background.state :=
  (Background.step (Background.MsgSTART_CAPTURE sample_config)
     Background.initial).1.

(** The controller while startCapture waits for the capturer's answer. *)
Definition acknowledging : Background.state :=
  (Background.run
     [Background.StreamIdResult 0 None (Some (lit "stream-1"));
      Background.ContextsResult 0 (inl 0%nat);
      Background.DocumentCreated 0 None;
      Background.TimerFired 1] connected).1.


(** The overlay after a sequence of events, each with the time at which
    it is handled. *)
Definition overlay_run (evs : list (Z * ContentScript.event))
    (s : ContentScript.state) : ContentScript.state :=
  fold_left (fun st e => ContentScript.step e.1 e.2 st) evs s.

(** Two records of one WebSocket: what openWebSocket fixed when it
    constructed the socket (the url, the attempt counter, the timer and
    who waits for the promise) is the same in both. *)
Definition same_connection (a b : Background.websocket) : Prop :=
  Background.ws_url b = Background.ws_url a /\
  Background.ws_attempt b = Background.ws_attempt a /\
  Background.ws_t b = Background.ws_t a /\
  Background.ws_waiter b = Background.ws_waiter a.

(** Every socket of the store [l] is still in the store [l'], at the
    same place, as the same connection. *)
Definition connections_kept (l l' : list Background.websocket) : Prop :=
  forall w ws, l !! w = Some ws ->
    exists ws', l' !! w = Some ws' /\ same_connection ws ws'.



(** The five controls of the popup agree on whether a capture runs:
    Start and the three settings are disabled exactly when it does, Stop
    exactly when it does not. *)
Definition controls (running : bool) (s : Popup.state) : Prop :=
  Popup.btnStart_disabled s = running /\
  Popup.btnStop_disabled s = negb running /\
  Popup.chunkInput_disabled s = running /\
  Popup.modelSel_disabled s = running /\
  Popup.wsUrlInput_disabled s = running.

(** Events of the popup that are messages from the other scripts. *)
Definition is_message (ev : Popup.event) : bool :=
  match ev with
  | Popup.Received _ _ => true
  | _ => false
  end.

(** Events of the popup other than a subtitle preview. *)
Definition no_preview (ev : Popup.event) : bool :=
  match ev with
  | Popup.Received (Background.SUBTITLE_PREVIEW _) _ => false
  | _ => true
  end.

(** The popup after a click on Stop, nothing previewed yet. *)
Definition halted : Popup.state :=
  {| Popup.btnStart_disabled := false;
     Popup.btnStop_disabled := true;
     Popup.chunkInput_disabled := false;
     Popup.modelSel_disabled := false;
     Popup.wsUrlInput_disabled := false;
     Popup.statusText := Background.Text (lit "stopped");
     Popup.dot_className := lit "dot";
     Popup.previewEl := VUndefined;
     Popup.latLabel := Popup.Dash;
     Popup.latBar_width := Popup.Zero;
     Popup.latBar_background := [];
     Popup.subtitleReceivedAt := 0 |}.

(** The popup after a click on Start, before the answer. *)
Definition clicked : Popup.state :=
  (Popup.step
     (Popup.StartClicked (chunkSize sample_config) (modelSize sample_config)
        (overlayPos sample_config) (fontSize sample_config)
        (wsUrl sample_config)) halted).1.

(* ================================================================== *)
(** * Header splicing *)

Section Splicing.
Import Offscreen.

Lemma byte_is_true (o : option byte) (b : byte) :
  byte_is o b = true <-> o = Some b.
Proof.
  destruct o as [x|]; simpl.
  - split; intros H.
    + f_equal. now apply Byte.byte_dec_bl.
    + injection H as ->. now apply Byte.byte_dec_lb.
  - split; discriminate.
Qed.

Lemma marker_at_lookups (view : list byte) (i : nat) :
  marker_at view i = true <->
  view !! i = Some x1f /\ view !! (i + 1)%nat = Some x43 /\
  view !! (i + 2)%nat = Some xb6 /\ view !! (i + 3)%nat = Some x75.
Proof.
  unfold marker_at. rewrite !andb_true_iff, !byte_is_true. tauto.
Qed.

Lemma marker_at_occurs (view : list byte) (i : nat) :
  marker_at view i = true <-> occurs_at view i.
Proof.
  rewrite marker_at_lookups. split.
  - intros (H0 & H1 & H2 & H3).
    exists (take i view), (drop (i + 4) view). split.
    + rewrite <- (take_drop i view) at 1. f_equal.
      rewrite (drop_S _ _ _ H0).
      replace (S i) with (i + 1)%nat by lia. rewrite (drop_S _ _ _ H1).
      replace (S (i + 1)) with (i + 2)%nat by lia. rewrite (drop_S _ _ _ H2).
      replace (S (i + 2)) with (i + 3)%nat by lia. rewrite (drop_S _ _ _ H3).
      now replace (S (i + 3)) with (i + 4)%nat by lia.
    + apply length_take_le.
      assert ((i < length view)%nat) by (eapply lookup_lt_Some; eauto). lia.
  - intros (pre & post & -> & <-). unfold cluster_id.
    repeat split.
    + rewrite lookup_app_r by lia. now rewrite Nat.sub_diag.
    + rewrite lookup_app_r by lia.
      now replace (length pre + 1 - length pre)%nat with 1%nat by lia.
    + rewrite lookup_app_r by lia.
      now replace (length pre + 2 - length pre)%nat with 2%nat by lia.
    + rewrite lookup_app_r by lia.
      now replace (length pre + 3 - length pre)%nat with 3%nat by lia.
Qed.

Lemma marker_at_in_range (view : list byte) (k : nat) :
  marker_at view k = true -> (k + 3 < length view)%nat.
Proof.
  rewrite marker_at_lookups. intros (_ & _ & _ & H).
  eapply lookup_lt_Some; eauto.
Qed.

Lemma scan_found (view : list byte) (k fuel i : nat) :
  (i <= k)%nat -> (k < i + fuel)%nat ->
  marker_at view k = true ->
  (forall j, (i <= j < k)%nat -> marker_at view j = false) ->
  scan view fuel i = Z.of_nat k.
Proof.
  intros Hik Hfuel Hk. pose proof (marker_at_in_range _ _ Hk) as Hrange.
  revert i Hik Hfuel. induction fuel as [|fuel IH]; intros i Hik Hfuel Hbefore.
  - lia.
  - simpl. destruct (Z.ltb_spec (Z.of_nat i) (Z.of_nat (length view) - 3)); [|lia].
    destruct (decide (i = k)) as [->|Hne].
    + now rewrite Hk.
    + rewrite Hbefore by lia. apply IH; [lia|lia|].
      intros j Hj. apply Hbefore. lia.
Qed.

Lemma scan_none (view : list byte) (fuel i : nat) :
  (forall j, (i <= j)%nat -> marker_at view j = false) ->
  scan view fuel i = -1.
Proof.
  revert i. induction fuel as [|fuel IH]; intros i Hnone; simpl; [reflexivity|].
  destruct (Z.of_nat i <? Z.of_nat (length view) - 3); [|reflexivity].
  rewrite Hnone by lia. apply IH. intros j Hj. apply Hnone. lia.
Qed.

Lemma findClusterOffset_first (block : list byte) (k : nat) :
  first_at block k -> findClusterOffset block = Z.of_nat k.
Proof.
  intros [Hk Hfirst]. apply marker_at_occurs in Hk.
  pose proof (marker_at_in_range _ _ Hk).
  apply scan_found; [lia|lia|exact Hk|].
  intros j Hj. destruct (marker_at block j) eqn:E; [|reflexivity].
  apply marker_at_occurs in E. exfalso. apply (Hfirst j); [lia|exact E].
Qed.

Lemma findClusterOffset_absent (block : list byte) :
  absent block -> findClusterOffset block = -1.
Proof.
  intros Habs. apply scan_none. intros j _.
  destruct (marker_at block j) eqn:E; [|reflexivity].
  apply marker_at_occurs in E. now destruct (Habs j).
Qed.

Lemma first_at_prefix (block : list byte) (k : nat) :
  first_at block k -> exists post, block = take k block ++ cluster_id ++ post.
Proof.
  intros [(pre & post & -> & <-) _]. exists post.
  now rewrite take_app_length.
Qed.

Lemma arrayBufferToBase64_total (buffer : list byte) :
  arrayBufferToBase64 buffer = Some (base64_of buffer).
Proof.
  unfold arrayBufferToBase64, Base64.btoa, base64_of.
  replace (forallb _ _) with true; [reflexivity|].
  symmetry. apply forallb_forall. intros c Hc.
  apply in_map_iff in Hc as (b & <- & _).
  apply N.leb_le, Byte.to_N_bounded.
Qed.

Lemma ondataavailable_block (r : nat) (rec : recorder) (s : state) (b : list byte) :
  recorders s !! r = Some rec -> (1 <= length b)%nat ->
  ondataavailable r (Some b) s =
    (set_recorders (<[r := advance rec]> (recorders s))
       (set_webmHeader (splice (chunkIndex rec) (webmHeader s) b).2 s),
     [SendMessage (AUDIO_CHUNK
        (base64_of (splice (chunkIndex rec) (webmHeader s) b).1)
        {| md_index := chunkIndex rec; md_start := chunkStartSec rec;
           md_end := chunkStartSec rec + chunkMs rec / 1000;
           md_mimeType := mimeType rec |})]).
Proof.
  intros Hr Hb. unfold ondataavailable. rewrite Hr.
  destruct (Nat.ltb_spec (length b) 1); [lia|].
  destruct (splice _ _ _) as [d h] eqn:E. simpl.
  now rewrite arrayBufferToBase64_total.
Qed.

Lemma ondataavailable_empty (r : nat) (s : state) :
  ondataavailable r (Some []) s = (s, []).
Proof. unfold ondataavailable. now destruct (recorders s !! r). Qed.

(** Once the first block is out, the cached header is fixed and every
    block is sent with it in front (or as it is when there is none). *)
Lemma run_blocks_later (r : nat) (bs : list (list byte)) :
  forall (rec : recorder) (s : state),
    recorders s !! r = Some rec -> (0 < chunkIndex rec)%nat ->
    webmHeader (run_blocks r (map Some bs) s).1 = webmHeader s /\
    sent_chunks (run_blocks r (map Some bs) s).2 =
      map (fun b => base64_of (match webmHeader s with
                               | Some h => h ++ b
                               | None => b
                               end))
          (filter (fun b => (1 <= length b)%nat) bs).
Proof.
  induction bs as [|b bs IH]; intros rec s Hr Hidx; [easy|].
  cbn [map run_blocks].
  destruct (decide (1 <= length b)%nat) as [Hb|Hb].
  - rewrite (ondataavailable_block r rec s b Hr Hb).
    assert (Hsp : splice (chunkIndex rec) (webmHeader s) b =
                  (match webmHeader s with Some h => h ++ b | None => b end,
                   webmHeader s)).
    { unfold splice. destruct (Nat.eqb_spec (chunkIndex rec) 0); [lia|].
      now destruct (webmHeader s). }
    rewrite Hsp. simpl.
    match goal with |- context [run_blocks r _ ?s1] =>
      destruct (IH (advance rec) s1) as [IH1 IH2] end.
    { simpl. apply list_lookup_insert_eq. eapply lookup_lt_Some; eauto. }
    { simpl. lia. }
    destruct (run_blocks r (map Some bs) _) as [s2 e2]. simpl in *.
    rewrite filter_cons_True by exact Hb. simpl. split; [exact IH1|].
    unfold sent_chunks in *. simpl. now rewrite IH2.
  - assert (b = []) as -> by (destruct b; [reflexivity|simpl in Hb; lia]).
    rewrite ondataavailable_empty.
    destruct (IH rec s Hr Hidx) as [IH1 IH2].
    destruct (run_blocks r (map Some bs) s) as [s2 e2]. simpl in *.
    now rewrite filter_cons_False by exact Hb.
Qed.

(** A session from its first block on: the header is whatever the first
    block leaves in [webmHeader]. *)
Lemma run_blocks_session (r : nat) (rec : recorder) (s : state)
    (b0 : list byte) (bs : list (list byte)) :
  recorders s !! r = Some rec -> chunkIndex rec = 0%nat ->
  (1 <= length b0)%nat ->
  let hdr := (splice 0 (webmHeader s) b0).2 in
  webmHeader (ondataavailable r (Some b0) s).1 = hdr /\
  webmHeader (run_blocks r (map Some (b0 :: bs)) s).1 = hdr /\
  sent_chunks (run_blocks r (map Some (b0 :: bs)) s).2 =
    base64_of b0 ::
    map (fun b => base64_of (match hdr with Some h => h ++ b | None => b end))
        (filter (fun b => (1 <= length b)%nat) bs).
Proof.
  intros Hr Hidx Hb hdr. cbn [map run_blocks].
  rewrite (ondataavailable_block r rec s b0 Hr Hb), Hidx.
  assert (Hd : (splice 0 (webmHeader s) b0).1 = b0).
  { unfold splice. simpl. now destruct (0 <? findClusterOffset b0). }
  rewrite Hd. fold hdr.
  match goal with |- context [run_blocks r _ ?s1] =>
    destruct (run_blocks_later r bs (advance rec) s1) as [H1 H2] end.
  { simpl. apply list_lookup_insert_eq. eapply lookup_lt_Some; eauto. }
  { simpl. lia. }
  destruct (run_blocks r (map Some bs) _) as [s2 e2]. simpl in *.
  split; [reflexivity|]. split; [exact H1|].
  unfold sent_chunks in *. simpl. now rewrite H2.
Qed.

(** A successful startCapture leaves no cached header and a recorder
    that has sent nothing yet: the state a session starts from. *)
Lemma startCapture_fresh (isTypeSupported : jsstring -> bool)
    (config : start_config) (streamId : jsstring) (str : stream) (s : state) :
  let started :=
    (startCapture_resume isTypeSupported config (inl str)
       (startCapture_begin streamId s).1).1 in
  webmHeader started = None /\
  mediaRecorder started = Some (length (recorders s)) /\
  exists rec, recorders started !! length (recorders s) = Some rec /\
              chunkIndex rec = 0%nat.
Proof.
  simpl. split; [reflexivity|]. split; [reflexivity|].
  rewrite lookup_app_r, Nat.sub_diag by lia.
  eexists. split; reflexivity.
Qed.

(** stopCapture marks the current recorder inactive; the counters every
    handler closes over are not touched. *)
Lemma stopCapture_keeps_closure (s : state) (r : nat) (rec : recorder) :
  recorders s !! r = Some rec ->
  exists rec', recorders (stopCapture s).1 !! r = Some rec' /\
               chunkIndex rec' = chunkIndex rec /\
               chunkStartSec rec' = chunkStartSec rec /\
               chunkMs rec' = chunkMs rec /\ mimeType rec' = mimeType rec.
Proof.
  intros Hr. unfold stopCapture. simpl.
  destruct (mediaRecorder s) as [r0|]; [|now exists rec].
  destruct (recorders s !! r0) as [rec0|] eqn:H0; [|now exists rec].
  destruct (r_state rec0); try (now exists rec);
    (destruct (decide (r0 = r)) as [->|Hne];
     [rewrite list_lookup_insert_eq by (eapply lookup_lt_Some; eauto);
      eexists; split; [reflexivity|]; simpl; rewrite Hr in H0; now injection H0 as ->
     |rewrite list_lookup_insert_ne by exact Hne; now exists rec]).
Qed.

Lemma ondataavailable_recorder (r : nat) (data : option (list byte)) (s : state) :
  is_Some (recorders s !! r) ->
  is_Some (recorders (ondataavailable r data s).1 !! r).
Proof.
  intros [rec Hr]. destruct data as [b|].
  - destruct (decide (1 <= length b)%nat) as [Hb|Hb].
    + rewrite (ondataavailable_block r rec s b Hr Hb). simpl.
      rewrite list_lookup_insert_eq by (eapply lookup_lt_Some; eauto). eauto.
    + assert (b = []) as -> by (destruct b; [reflexivity|simpl in Hb; lia]).
      rewrite ondataavailable_empty. eauto.
  - simpl. eauto.
Qed.

Lemma run_blocks_recorder (r : nat) (blocks : list (option (list byte))) :
  forall s, is_Some (recorders s !! r) ->
            is_Some (recorders (run_blocks r blocks s).1 !! r).
Proof.
  induction blocks as [|b blocks IH]; intros s Hr; [exact Hr|].
  cbn [run_blocks].
  pose proof (IH _ (ondataavailable_recorder r b s Hr)) as H.
  destruct (ondataavailable r b s) as [s1 e1]. simpl in H.
  destruct (run_blocks r blocks s1) as [s2 e2]. exact H.
Qed.

(** After stopCapture no header is cached: a block handed over then is
    sent as it is. *)
Lemma stopped_block_unspliced (s : state) (r : nat) (block : list byte) :
  is_Some (recorders s !! r) -> (1 <= length block)%nat ->
  sent_chunks (ondataavailable r (Some block) (stopCapture s).1).2 =
    [base64_of block].
Proof.
  intros [rec Hr] Hb.
  destruct (stopCapture_keeps_closure s r rec Hr) as (rec' & Hr' & _).
  rewrite (ondataavailable_block r rec' _ block Hr' Hb).
  change (webmHeader (stopCapture s).1) with (@None (list byte)).
  assert (Hd : (splice (chunkIndex rec') None block).1 = block).
  { unfold splice. destruct (chunkIndex rec' =? 0)%nat; [|reflexivity].
    now destruct (0 <? findClusterOffset block). }
  now rewrite Hd.
Qed.

(** C1, as the code has it.  Header splicing.  Take the blocks a
    session's recorder produces, handled in order from the state
    startCapture leaves.  Let the first produced block [b0] contain the
    media-cluster marker 1F 43 B6 75, the scan meeting it at byte offset
    [k > 0].  Then the handler caches bytes [0,k) of [b0] as [webmHeader],
    and the payload of every later block handled before stopCapture is
    the base64 text of these [k] bytes followed by the block's own bytes.
    If the marker does not occur in [b0], no header is cached and every
    later block is sent as it is.  stopCapture clears the cached header:
    a block the recorder hands over after it (the data flushed by the
    stop) is sent as it is, whatever its index. *)
Theorem header_splicing (r : nat) (rec : recorder) (s : state)
    (b0 : list byte) (bs : list (list byte)) :
  recorders s !! r = Some rec -> chunkIndex rec = 0%nat ->
  webmHeader s = None -> (1 <= length b0)%nat ->
  let later := filter (fun b => (1 <= length b)%nat) bs in
  let first := ondataavailable r (Some b0) s in
  let session := run_blocks r (map Some (b0 :: bs)) s in
  (forall k, first_at b0 k -> (0 < k)%nat ->
     webmHeader first.1 = Some (take k b0) /\
     webmHeader session.1 = Some (take k b0) /\
     sent_chunks session.2 =
       base64_of b0 :: map (fun b => base64_of (take k b0 ++ b)) later)
  /\
  (absent b0 ->
     webmHeader first.1 = None /\
     webmHeader session.1 = None /\
     sent_chunks session.2 = map base64_of (b0 :: later))
  /\
  (forall flushed, (1 <= length flushed)%nat ->
     webmHeader (stopCapture session.1).1 = None /\
     sent_chunks
       (ondataavailable r (Some flushed) (stopCapture session.1).1).2 =
       [base64_of flushed]).
Proof.
  intros Hr Hidx Hhdr Hb later first session.
  pose proof (run_blocks_session r rec s b0 bs Hr Hidx Hb) as Hrun.
  rewrite Hhdr in Hrun. unfold splice in Hrun. simpl in Hrun.
  split; [|split].
  - intros k Hk Hpos. rewrite (findClusterOffset_first _ _ Hk) in Hrun.
    destruct (Z.ltb_spec 0 (Z.of_nat k)); [|lia].
    simpl in Hrun. rewrite Nat2Z.id in Hrun. exact Hrun.
  - intros Habs. rewrite (findClusterOffset_absent _ Habs) in Hrun.
    simpl in Hrun. exact Hrun.
  - intros flushed Hf. split; [reflexivity|].
    apply stopped_block_unspliced; [|exact Hf].
    apply run_blocks_recorder. eauto.
Qed.

(** C10.  When the first block starts with the marker (offset 0), the
    scan returns 0, the guard [clusterOffset > 0] fails, no header is
    cached, and every later block is sent as it is: the same as when the
    marker is absent, rather than splicing an empty header. *)
Theorem marker_at_offset_zero (r : nat) (rec : recorder) (s : state)
    (b0 : list byte) (bs : list (list byte)) :
  recorders s !! r = Some rec -> chunkIndex rec = 0%nat ->
  webmHeader s = None -> occurs_at b0 0 ->
  let later := filter (fun b => (1 <= length b)%nat) bs in
  let session := run_blocks r (map Some (b0 :: bs)) s in
  findClusterOffset b0 = 0 /\
  webmHeader (ondataavailable r (Some b0) s).1 = None /\
  webmHeader session.1 = None /\
  sent_chunks session.2 = map base64_of (b0 :: later).
Proof.
  intros Hr Hidx Hhdr Hocc later session.
  assert (Hfirst : first_at b0 0) by (split; [exact Hocc|intros j Hj; lia]).
  assert (Hb : (1 <= length b0)%nat).
  { destruct Hocc as (pre & post & -> & _).
    rewrite !length_app. unfold cluster_id. simpl. lia. }
  pose proof (run_blocks_session r rec s b0 bs Hr Hidx Hb) as Hrun.
  rewrite Hhdr in Hrun. unfold splice in Hrun. simpl in Hrun.
  rewrite (findClusterOffset_first _ _ Hfirst) in Hrun. simpl in Hrun.
  split; [exact (findClusterOffset_first _ _ Hfirst)|exact Hrun].
Qed.

End Splicing.

(* ================================================================== *)
(** * Base64: decoding inverts encoding *)

Section Base64Facts.
Import Base64.
Local Open Scope N_scope.

Lemma list_ind3 {A : Type} (P : list A -> Prop) :
  P [] -> (forall a, P [a]) -> (forall a b, P [a; b]) ->
  (forall a b c l, P l -> P (a :: b :: c :: l)) ->
  forall l, P l.
Proof.
  intros H0 H1 H2 H3 l.
  enough (H : P l /\ (forall a, P (a :: l)) /\ (forall a b, P (a :: b :: l)))
    by apply H.
  induction l as [|x l (IH0 & IH1 & IH2)]; [auto|].
  repeat split; auto.
Qed.

Ltac split_test c :=
  match c with
  | andb ?x ?y => split_test x; try split_test y
  | orb ?x ?y => split_test x; try split_test y
  | N.leb ?a ?b => destruct (N.leb_spec a b)
  | N.ltb ?a ?b => destruct (N.ltb_spec a b)
  | N.eqb ?a ?b => destruct (N.eqb_spec a b)
  end.

Ltac split_tests :=
  repeat match goal with
         | |- context [if ?c then _ else _] => split_test c; cbn [andb orb]
         end;
  repeat match goal with
         | |- context [N.eqb ?a ?b] => destruct (N.eqb_spec a b)
         end;
  simpl; try reflexivity; try lia; try (f_equal; lia); try (exfalso; lia).

Ltac divmod x d :=
  pose proof (N.div_mod' x d); pose proof (N.mod_lt x d ltac:(discriminate)).

Lemma b64val_b64char (i : N) : i < 64 -> b64val (b64char i) = Some i.
Proof. intros Hi. unfold b64char. split_tests; unfold b64val; split_tests. Qed.

Lemma b64char_not_pad (i : N) : (b64char i =? pad) = false.
Proof. unfold b64char, pad. split_tests. Qed.

Lemma b64char_not_whitespace (i : N) : is_ascii_whitespace (b64char i) = false.
Proof. unfold b64char, is_ascii_whitespace. split_tests. Qed.

Lemma encode_no_whitespace (l : list N) :
  filter (fun c => is_ascii_whitespace c = false) (encode l) = encode l.
Proof.
  induction l as [| a | a b | a b c l IH] using list_ind3; cbn [encode].
  - reflexivity.
  - rewrite !filter_cons_True by apply b64char_not_whitespace.
    reflexivity.
  - rewrite !filter_cons_True by apply b64char_not_whitespace.
    reflexivity.
  - rewrite !filter_cons_True by apply b64char_not_whitespace.
    now rewrite IH.
Qed.

Lemma mod4_step (n : nat) : (S (S (S (S n))) mod 4 = n mod 4)%nat.
Proof.
  replace (S (S (S (S n)))) with (n + 1 * 4)%nat by lia.
  apply Nat.Div0.mod_add.
Qed.

Lemma length_encode (l : list N) : (length (encode l) mod 4 = 0)%nat.
Proof.
  induction l as [| a | a b | a b c l IH] using list_ind3; cbn [encode length];
    try reflexivity.
  now rewrite mod4_step.
Qed.

Lemma length_sextets (l : list N) : (length (sextets l) mod 4 <> 1)%nat.
Proof.
  induction l as [| a | a b | a b c l IH] using list_ind3; cbn [sextets length];
    try (simpl; lia).
  now rewrite mod4_step.
Qed.

Lemma strip_padding_encode (l : list N) :
  strip_padding (encode l) = map b64char (sextets l).
Proof.
  induction l as [| a | a b | a b c l IH] using list_ind3.
  - reflexivity.
  - reflexivity.
  - cbn. now rewrite b64char_not_pad.
  - cbn [encode sextets map]. rewrite <- IH.
    destruct (encode l) as [|x [|y r]]; cbn; rewrite ?b64char_not_pad; reflexivity.
Qed.

Lemma sextets_in_alphabet (l : list N) :
  Forall (fun a => a < 256) l ->
  mapM b64val (map b64char (sextets l)) = Some (sextets l).
Proof.
  intros Hl. apply mapM_Some_2.
  induction l as [| a | a b | a b c l IH] using list_ind3; cbn [sextets map].
  - constructor.
  - inversion_clear Hl as [|? ? Ha _]. divmod a 4.
    pose proof (N.Div0.div_lt_upper_bound a 4 64 ltac:(lia)).
    repeat constructor; apply b64val_b64char; lia.
  - inversion_clear Hl as [|? ? Ha Hl']. inversion_clear Hl' as [|? ? Hb _].
    divmod a 4. divmod b 16.
    pose proof (N.Div0.div_lt_upper_bound a 4 64 ltac:(lia)).
    pose proof (N.Div0.div_lt_upper_bound b 16 16 ltac:(lia)).
    repeat constructor; apply b64val_b64char; lia.
  - inversion_clear Hl as [|? ? Ha Hl']. inversion_clear Hl' as [|? ? Hb Hl''].
    inversion_clear Hl'' as [|? ? Hc Hl].
    divmod a 4. divmod b 16. divmod c 64.
    pose proof (N.Div0.div_lt_upper_bound a 4 64 ltac:(lia)).
    pose proof (N.Div0.div_lt_upper_bound b 16 16 ltac:(lia)).
    pose proof (N.Div0.div_lt_upper_bound c 64 4 ltac:(lia)).
    repeat (constructor; [apply b64val_b64char; lia|]). now apply IH.
Qed.

Lemma decode_sextets_inverse (l : list N) :
  Forall (fun a => a < 256) l -> decode_sextets (sextets l) = l.
Proof.
  induction l as [| a | a b | a b c l IH] using list_ind3; intros Hl;
    cbn [sextets decode_sextets].
  - reflexivity.
  - divmod a 4. f_equal. symmetry. apply (N.div_unique _ _ _ 0); lia.
  - inversion_clear Hl as [|? ? Ha Hl']. inversion_clear Hl' as [|? ? Hb _].
    divmod a 4. divmod b 16.
    assert (E : ((a / 4 * 64 + (a mod 4 * 16 + b / 16)) * 64 + b mod 16 * 4) / 4
                = a * 256 + b).
    { symmetry. apply (N.div_unique _ _ _ 0); lia. }
    rewrite E. f_equal; [|f_equal].
    + symmetry. apply (N.div_unique _ _ _ b); lia.
    + symmetry. apply (N.mod_unique _ _ a); lia.
  - inversion_clear Hl as [|? ? Ha Hl']. inversion_clear Hl' as [|? ? Hb Hl''].
    inversion_clear Hl'' as [|? ? Hc Hl].
    divmod a 4. divmod b 16. divmod c 64.
    assert (E : ((a / 4 * 64 + (a mod 4 * 16 + b / 16)) * 64
                 + (b mod 16 * 4 + c / 64)) * 64 + c mod 64
                = a * 65536 + b * 256 + c) by lia.
    cbv zeta. rewrite E.
    assert (E1 : (a * 65536 + b * 256 + c) / 256 = a * 256 + b).
    { symmetry. apply (N.div_unique _ _ _ c); lia. }
    rewrite E1, (IH Hl). f_equal; [|f_equal; [|f_equal]].
    + symmetry. apply (N.div_unique _ _ _ (b * 256 + c)); lia.
    + symmetry. apply (N.mod_unique _ _ a); lia.
    + symmetry. apply (N.mod_unique _ _ (a * 256 + b)); lia.
Qed.

Example btoa_light_work :
  btoa (lit "light work.") = Some (lit "bGlnaHQgd29yay4=")
  /\ btoa (lit "Ma") = Some (lit "TWE=") /\ btoa (lit "M") = Some (lit "TQ==").
Proof. split; [|split]; vm_compute; reflexivity. Qed.

Example atob_forgiving :
  atob (lit "bGln aHQgd29yay4") = Some (lit "light work.")
  /\ atob (lit "TQ=") = None /\ atob (lit "T") = None.
Proof. split; [|split]; vm_compute; reflexivity. Qed.

(** [atob(btoa(s)) = s] for every binary string [s]. *)
Lemma atob_encode (l : list N) :
  Forall (fun a => a < 256) l -> atob (encode l) = Some l.
Proof.
  intros Hl. unfold atob. cbv zeta.
  rewrite encode_no_whitespace, length_encode. cbn [Nat.eqb].
  rewrite strip_padding_encode, length_map.
  destruct (Nat.eqb_spec (length (sextets l) mod 4) 1) as [E|_].
  - now apply length_sextets in E.
  - rewrite (sextets_in_alphabet l Hl). cbn.
    now rewrite (decode_sextets_inverse l Hl).
Qed.

End Base64Facts.

(* ================================================================== *)
(** * The payload across the two processes *)

Section Payload.

Lemma binary_string_bytes (buffer : list byte) :
  Forall (fun a => a < 256)%N (Offscreen.binary_string buffer).
Proof.
  apply Forall_forall. intros c Hc.
  apply list_elem_of_In, in_map_iff in Hc as (b & <- & _).
  pose proof (Byte.to_N_bounded b). lia.
Qed.

Lemma to_uint8_to_N (b : byte) : Background.to_uint8 (Byte.to_N b) = b.
Proof.
  unfold Background.to_uint8. pose proof (Byte.to_N_bounded b).
  rewrite N.mod_small by lia. now rewrite Byte.of_to_N.
Qed.

Lemma to_uint8_binary_string (buffer : list byte) :
  map Background.to_uint8 (Offscreen.binary_string buffer) = buffer.
Proof.
  unfold Offscreen.binary_string. rewrite map_map.
  rewrite <- (map_id buffer) at 2. apply map_ext, to_uint8_to_N.
Qed.

Lemma atob_base64_of (buffer : list byte) :
  Base64.atob (base64_of buffer) = Some (Offscreen.binary_string buffer).
Proof. apply atob_encode, binary_string_bytes. Qed.

Lemma handleAudioChunk_open (buffer : list byte) (metadata : chunk_metadata)
    (s : Background.state) (w : nat) (ws : Background.websocket) :
  Background.socket s = Some w -> Background.sockets s !! w = Some ws ->
  Background.ws_readyState ws = Background.OPEN ->
  Background.handleAudioChunk (base64_of buffer) metadata s =
    (s, [Background.SocketSend w (Background.ChunkRecord metadata);
         Background.SocketSend w (Background.Binary buffer)]).
Proof.
  intros Hs Hw Hopen. unfold Background.handleAudioChunk, Background.read.
  rewrite Hs, Hw. simpl. rewrite Hopen, atob_base64_of.
  now rewrite to_uint8_binary_string.
Qed.

(** C9.  For every segment the capturer emits, the controller's decoding
    ([atob], then the copy into a Uint8Array) inverts the capturer's
    [arrayBufferToBase64]: on an open socket the binary frame written is
    byte for byte the (header-spliced) buffer [dataToSend] of the
    capturer, right after the metadata record. *)
Theorem payload_round_trip (r : nat) (rec : Offscreen.recorder)
    (so : Offscreen.state) (block : list byte)
    (s : Background.state) (w : nat) (ws : Background.websocket) :
  Offscreen.recorders so !! r = Some rec -> (1 <= length block)%nat ->
  Background.socket s = Some w -> Background.sockets s !! w = Some ws ->
  Background.ws_readyState ws = Background.OPEN ->
  let dataToSend :=
    (Offscreen.splice (Offscreen.chunkIndex rec) (Offscreen.webmHeader so) block).1 in
  exists chunk metadata,
    (Offscreen.ondataavailable r (Some block) so).2 =
      [Offscreen.SendMessage (Offscreen.AUDIO_CHUNK chunk metadata)] /\
    Offscreen.arrayBufferToBase64 dataToSend = Some chunk /\
    option_map (map Background.to_uint8) (Base64.atob chunk) = Some dataToSend /\
    Background.step (Background.MsgAUDIO_CHUNK chunk metadata) s =
      (s, [Background.SocketSend w (Background.ChunkRecord metadata);
           Background.SocketSend w (Background.Binary dataToSend)]).
Proof.
  intros Hr Hb Hs Hw Hopen dataToSend.
  rewrite (ondataavailable_block r rec so block Hr Hb). fold dataToSend.
  eexists _, _. split; [reflexivity|]. split; [|split].
  - apply arrayBufferToBase64_total.
  - rewrite atob_base64_of. simpl. now rewrite to_uint8_binary_string.
  - simpl. now apply handleAudioChunk_open with ws.
Qed.

Lemma payload_round_trip_witness :
  exists chunk metadata,
    (Offscreen.ondataavailable 0 (Some [x1a; x45; xdf; xa3]) capturing).2 =
      [Offscreen.SendMessage (Offscreen.AUDIO_CHUNK chunk metadata)] /\
    Offscreen.arrayBufferToBase64 [x1a; x45; xdf; xa3] = Some chunk /\
    option_map (map Background.to_uint8) (Base64.atob chunk)
      = Some [x1a; x45; xdf; xa3] /\
    Background.step (Background.MsgAUDIO_CHUNK chunk metadata) connected =
      (connected,
       [Background.SocketSend 0 (Background.ChunkRecord metadata);
        Background.SocketSend 0 (Background.Binary [x1a; x45; xdf; xa3])]).
Proof.
  apply (payload_round_trip 0 fresh_recorder capturing [x1a; x45; xdf; xa3]
           connected 0 open_socket).
  - reflexivity.
  - simpl. lia.
  - reflexivity.
  - reflexivity.
  - reflexivity.
Defined.

End Payload.

Section SplicingWitnesses.
Import Offscreen.

Lemma header_splicing_witness :
  let b0 := [x1a; x45; x1f; x43; xb6; x75; x80] in
  let bs := [[x01]; []; [x02; x03]] in
  webmHeader (ondataavailable 0 (Some b0) capturing).1 = Some [x1a; x45] /\
  webmHeader (run_blocks 0 (map Some (b0 :: bs)) capturing).1 = Some [x1a; x45] /\
  sent_chunks (run_blocks 0 (map Some (b0 :: bs)) capturing).2 =
    [base64_of b0; base64_of [x1a; x45; x01]; base64_of [x1a; x45; x02; x03]].
Proof.
  intros b0 bs.
  assert (Hfirst : first_at b0 2).
  { split.
    - exists [x1a; x45], [x80]. split; reflexivity.
    - intros j Hj Hocc. apply marker_at_occurs in Hocc.
      destruct j as [|[|j]]; [discriminate Hocc|discriminate Hocc|lia]. }
  assert (Hlen : (1 <= length b0)%nat) by (simpl; lia).
  destruct (header_splicing 0 fresh_recorder capturing b0 bs
              eq_refl eq_refl eq_refl Hlen) as [Hfound _].
  exact (Hfound 2%nat Hfirst ltac:(lia)).
Defined.

(** The claim without the restriction fails on the block a recorder
    hands over when it is stopped: the first block has the marker at
    offset 2 and its first two bytes are cached; after stopCapture the
    next block of the recorder has index 1 and is sent without them. *)
Lemma flushed_block_not_spliced :
  let b0 := [x1a; x45; x1f; x43; xb6; x75; x80] in
  let stopped := (stopCapture (ondataavailable 0 (Some b0) capturing).1).1 in
  findClusterOffset b0 = 2 /\
  webmHeader (ondataavailable 0 (Some b0) capturing).1 = Some [x1a; x45] /\
  map md_index
    (sent_metadata (ondataavailable 0 (Some [x02; x03]) stopped).2) = [1%nat] /\
  sent_chunks (ondataavailable 0 (Some [x02; x03]) stopped).2 =
    [base64_of [x02; x03]] /\
  base64_of [x02; x03] <> base64_of ([x1a; x45] ++ [x02; x03]).
Proof.
  intros b0 stopped.
  split; [vm_compute; reflexivity|].
  split; [vm_compute; reflexivity|].
  split; [vm_compute; reflexivity|].
  split; [vm_compute; reflexivity|].
  vm_compute. discriminate.
Qed.

Lemma marker_at_offset_zero_witness :
  let b0 := [x1f; x43; xb6; x75; x80] in
  let bs := [[x01]; [x02; x03]] in
  findClusterOffset b0 = 0 /\
  webmHeader (ondataavailable 0 (Some b0) capturing).1 = None /\
  webmHeader (run_blocks 0 (map Some (b0 :: bs)) capturing).1 = None /\
  sent_chunks (run_blocks 0 (map Some (b0 :: bs)) capturing).2 =
    [base64_of b0; base64_of [x01]; base64_of [x02; x03]].
Proof.
  intros b0 bs.
  apply (marker_at_offset_zero 0 fresh_recorder capturing b0 bs
           eq_refl eq_refl eq_refl).
  exists [], [x80]. split; reflexivity.
Defined.

End SplicingWitnesses.

(* ================================================================== *)
(** * The transport channel: reconnection *)

Section Channel.
Import Background.
Local Open Scope action_scope.

Ltac unfold_actions :=
  unfold step, ws_onopen, ws_onerror, ws_onclose, connect_timeout, reconnect_now,
    settle, openWebSocket, startCapture_connected, startCapture_throw,
    startCapture_pause, set_stage, resume, stopCapture, notifyStatus,
    setTimeout, clearTimeout, ws_close, read, andthen, update, emit, skip.

(** C5.  The delay computed by ws.onclose for attempts 0, 1, 2, 3, 4 is
    2000, 4000, 8000, 12000, 12000 ms: it is
    [min(2000 * 2^attempt, 12000)], and the cap of 12000 ms holds from
    attempt 3 on. *)
Theorem reconnect_delay_table :
  map reconnect_delay [0; 1; 2; 3; 4]%nat = [2000; 4000; 8000; 12000; 12000]
  /\ (forall attempt : nat,
        reconnect_delay attempt = Z.min (2000 * 2 ^ Z.of_nat attempt) 12000)
  /\ (forall n : nat, reconnect_delay (3 + n) = 12000).
Proof.
  split; [reflexivity|]. split; [reflexivity|].
  intros n. unfold reconnect_delay.
  rewrite Nat2Z.inj_add, Z.pow_add_r by lia.
  pose proof (Z.pow_pos_nonneg 2 (Z.of_nat n) ltac:(lia) ltac:(lia)).
  change (2 ^ Z.of_nat 3) with 8. lia.
Qed.

Lemma step_WsClose_running (s : state) (w : nat) (ws : websocket) :
  sockets s !! w = Some ws -> ws_readyState ws <> CLOSED -> isRunning s = true ->
  step (WsClose w) s =
    (set_wsReconnectTimer (Some (next_timer s))
       (set_timers
          (<[next_timer s := {| delay := reconnect_delay (ws_attempt ws);
                                cb := ReconnectNow (ws_url ws) (ws_attempt ws) |}]>
             (timers s))
          (S (next_timer s))
          (set_sockets (alter (with_readyState CLOSED) w (sockets s)) s)),
     [RuntimeSend (STATUS_UPDATE (ReconnectingIn (reconnect_delay (ws_attempt ws)))
                     (lit "error"))]).
Proof.
  intros Hw Hopen Hrun. unfold_actions. rewrite Hw. cbn.
  destruct (ws_readyState ws) eqn:E; try congruence;
    cbn; rewrite list_lookup_alter_eq, Hw; cbn; rewrite Hrun; reflexivity.
Qed.

Lemma step_WsClose_stopped (s : state) (w : nat) :
  isRunning s = false ->
  (step (WsClose w) s).2 = [] /\
  timers (step (WsClose w) s).1 = timers s /\
  length (sockets (step (WsClose w) s).1) = length (sockets s).
Proof.
  intros Hrun. unfold_actions.
  destruct (sockets s !! w) as [ws|] eqn:Hw; cbn; [|easy].
  destruct (ws_readyState ws) eqn:E; cbn; try easy;
    rewrite list_lookup_alter_eq, Hw; cbn; rewrite Hrun; cbn;
    now rewrite length_alter.
Qed.

Lemma step_reconnect_running (s : state) (t : nat) (d : Z) (url : jsstring) (n : nat) :
  timers s !! t = Some {| delay := d; cb := ReconnectNow url n |} ->
  isRunning s = true ->
  step (TimerFired t) s =
    (set_timers
       (<[next_timer s := {| delay := 7000; cb := ConnectTimeout (length (sockets s)) |}]>
          (delete t (timers s)))
       (S (next_timer s))
       (set_socket (Some (length (sockets s)))
          (set_sockets
             (sockets s ++
                [{| ws_url := url; ws_attempt := n + 1;
                    ws_readyState := CONNECTING; ws_t := next_timer s;
                    ws_settled := false; ws_waiter := Reconnect_then |}]) s)),
     []).
Proof. intros Ht Hrun. unfold_actions. rewrite Ht. cbn. rewrite Hrun. reflexivity. Qed.


(** The socket created for [await openWebSocket(cfg.wsUrl)]. *)
Lemma step_ScriptInjected (s : state) (rid : nat) (tk : task) :
  tasks s !! rid = Some tk -> t_stage tk = AwaitExecuteScript ->
  let s' := (step (ScriptInjected rid None) s).1 in
  sockets s' = sockets s ++
    [{| ws_url := wsUrl (t_cfg tk); ws_attempt := 0;
        ws_readyState := CONNECTING; ws_t := next_timer s;
        ws_settled := false; ws_waiter := StartCapture_await rid |}] /\
  timers s' = <[next_timer s := {| delay := 7000;
                                    cb := ConnectTimeout (length (sockets s)) |}]>
                (timers s) /\
  socket s' = Some (length (sockets s)) /\
  isRunning s' = isRunning s /\
  tasks s' = alter (at_stage AwaitWebSocket) rid (tasks s) /\
  (step (ScriptInjected rid None) s).2 = [].
Proof.
  intros Htk Hst s'. subst s'. unfold_actions. rewrite Htk, Hst. cbn.
  easy.
Qed.

(** ** A stopped session *)

Ltac crush_step :=
  unfold_actions; unfold handleServerMessage, handleAudioChunk; unfold_actions;
  repeat (cbn -[lookup alter insert delete];
          match goal with
          | |- context [match ?x with _ => _ end] => destruct x eqn:?
          end);
  cbn -[lookup alter insert delete].

(** Only a start request sets [isRunning]. *)
Lemma step_keeps_stopped (ev : event) (s : state) :
  isRunning s = false -> not_a_start ev -> isRunning (step ev s).1 = false.
Proof.
  intros Hrun Hev. destruct ev; try (now destruct (Hev cfg)).
  all: crush_step; try easy; try congruence.
Qed.

(** With no startCapture call in flight, a stopped controller constructs
    no WebSocket. *)
Lemma step_opens_nothing (ev : event) (s : state) :
  isRunning s = false -> tasks s = ∅ -> not_a_start ev ->
  tasks (step ev s).1 = ∅ /\ length (sockets (step ev s).1) = length (sockets s).
Proof.
  intros Hrun Htk Hev. destruct ev; try (now destruct (Hev cfg)).
  all: crush_step;
    rewrite ?length_alter, ?Htk, ?alter_empty, ?delete_empty; try easy;
    try congruence.
  all: try (match goal with H : tasks _ !! _ = Some _ |- _ =>
              rewrite Htk, lookup_empty in H; discriminate end).
  all: rewrite Hrun in *; discriminate.
Qed.

Lemma run_cons (ev : event) (evs : list event) (s : state) :
  (run (ev :: evs) s).1 = (run evs (step ev s).1).1.
Proof. reflexivity. Qed.




(** ** The socket store *)

(** The state stopCapture leaves. *)
Lemma stopCapture_state (reason : string) (s : Background.state) :
  (Background.stopCapture reason s).1 =
  {| Background.socket := None;
     Background.currentTabId := Background.currentTabId s;
     Background.config := Background.config s;
     Background.wsReconnectTimer := Background.wsReconnectTimer s;
     Background.isRunning := false;
     Background.sockets :=
       match Background.socket s with
       | Some w =>
           alter (fun ws => match Background.ws_readyState ws with
                            | Background.CONNECTING | Background.OPEN =>
                                Background.with_readyState Background.CLOSING ws
                            | _ => ws
                            end) w (Background.sockets s)
       | None => Background.sockets s
       end;
     Background.timers :=
       match Background.wsReconnectTimer s with
       | Some t => delete t (Background.timers s)
       | None => Background.timers s
       end;
     Background.next_timer := Background.next_timer s;
     Background.tasks := Background.tasks s;
     Background.next_task := Background.next_task s |}.
Proof.
  destruct s as [sock tab cfg rt run socks tms nt tks nk].
  destruct rt as [t|], sock as [w|], tab as [id|]; try reflexivity;
    unfold Background.stopCapture, Background.andthen, Background.read; simpl;
    destruct (id =? 0); reflexivity.
Qed.

Lemma run_two (a b : event) (s : state) :
  (run [a; b] s).1 = (step b (step a s).1).1.
Proof. reflexivity. Qed.

(** Case analysis on the handlers, with stopCapture kept folded and
    replaced by the state it leaves. *)
Ltac case_events :=
  unfold step, startCapture, handleServerMessage, handleAudioChunk,
    ws_onopen, ws_onerror, ws_onclose, connect_timeout,
    reconnect_now, settle, openWebSocket, startCapture_connected,
    startCapture_throw, startCapture_pause, set_stage, resume,
    notifyStatus, setTimeout, clearTimeout, ws_close, read, andthen, update,
    emit, skip;
  repeat (cbn -[stopCapture lookup alter insert delete];
          match goal with
          | |- context [match ?x with _ => _ end] => destruct x eqn:?
          end);
  cbn -[stopCapture lookup alter insert delete];
  rewrite ?stopCapture_state;
  repeat (cbn -[lookup alter insert delete];
          match goal with
          | |- context [match ?x with _ => _ end] => destruct x eqn:?
          end);
  cbn -[lookup alter insert delete].

Lemma connections_kept_refl (l : list websocket) : connections_kept l l.
Proof. intros w ws H. exists ws. now repeat split. Qed.

Lemma connections_kept_trans (l1 l2 l3 : list websocket) :
  connections_kept l1 l2 -> connections_kept l2 l3 -> connections_kept l1 l3.
Proof.
  intros H12 H23 w ws H. destruct (H12 w ws H) as (ws2 & H2 & Hs2).
  destruct (H23 w ws2 H2) as (ws3 & H3 & Hs3). exists ws3. split; [exact H3|].
  destruct Hs2 as (?&?&?&?), Hs3 as (?&?&?&?). repeat split; congruence.
Qed.

Lemma connections_kept_alter (f : websocket -> websocket) (i : nat)
    (l : list websocket) :
  (forall ws, same_connection ws (f ws)) -> connections_kept l (alter f i l).
Proof.
  intros Hf w ws H. destruct (decide (i = w)) as [->|Hne].
  - exists (f ws). rewrite list_lookup_alter_eq, H. split; [reflexivity|apply Hf].
  - exists ws. rewrite list_lookup_alter_ne by exact Hne.
    split; [exact H|]. now repeat split.
Qed.

Lemma connections_kept_app (l new : list websocket) :
  connections_kept l (l ++ new).
Proof.
  intros w ws H. exists ws. split; [now apply lookup_app_l_Some|now repeat split].
Qed.


Lemma same_with_readyState (r : ready_state) (ws : websocket) :
  same_connection ws (with_readyState r ws).
Proof. now repeat split. Qed.

Lemma same_with_settled (ws : websocket) : same_connection ws (with_settled ws).
Proof. now repeat split. Qed.

Lemma same_closing (ws : websocket) :
  same_connection ws (match ws_readyState ws with
                      | CONNECTING | OPEN => with_readyState CLOSING ws
                      | _ => ws
                      end).
Proof. destruct (ws_readyState ws); now repeat split. Qed.

Ltac same_field :=
  first [apply same_with_readyState | apply same_with_settled | exact same_closing].

Ltac solve_kept :=
  repeat first
    [ apply connections_kept_refl
    | apply connections_kept_app
    | apply connections_kept_alter; same_field
    | eapply connections_kept_trans; [|apply connections_kept_alter; same_field]
    | eapply connections_kept_trans; [|apply connections_kept_app] ].

(** No handler removes a socket from the store or touches what its
    closures captured: the handlers only change the ready state and settle
    the promise. *)
Lemma step_keeps_connections (ev : event) (s : state) :
  connections_kept (sockets s) (sockets (step ev s).1).
Proof. destruct ev; case_events; solve_kept. Qed.

Lemma run_keeps_connections (evs : list event) :
  forall s, connections_kept (sockets s) (sockets (run evs s).1).
Proof.
  induction evs as [|ev evs IH]; intros s; [apply connections_kept_refl|].
  rewrite run_cons.
  eapply connections_kept_trans; [apply step_keeps_connections|apply IH].
Qed.


Ltac old_socket H :=
  apply lookup_lt_Some in H; rewrite ?length_alter in H; lia.

(** The two places that construct a WebSocket: startCapture, once the
    content script is injected and when the constructor accepts the url,
    with attempt 0; and the callback of a backoff timer in a running
    session, with the attempt counter of the timer raised by one. *)
Lemma step_new_connection (ev : event) (s : state) (w : nat) (new : websocket) :
  sockets (step ev s).1 !! w = Some new -> (length (sockets s) <= w)%nat ->
  w = length (sockets s) /\
  ((exists rid tk,
      ev = ScriptInjected rid None /\ tasks s !! rid = Some tk /\
      t_stage tk = AwaitExecuteScript /\
      new = {| ws_url := wsUrl (t_cfg tk); ws_attempt := 0;
               ws_readyState := CONNECTING; ws_t := next_timer s;
               ws_settled := false; ws_waiter := StartCapture_await rid |})
   \/
   (exists t d url n,
      ev = TimerFired t /\
      timers s !! t = Some {| delay := d; cb := ReconnectNow url n |} /\
      isRunning s = true /\
      new = {| ws_url := url; ws_attempt := n + 1;
               ws_readyState := CONNECTING; ws_t := next_timer s;
               ws_settled := false; ws_waiter := Reconnect_then |})).
Proof.
  destruct ev; case_events; intros H Hle; try (old_socket H).
  all: rewrite lookup_app_r in H by exact Hle;
       assert (Hw : w = length (sockets s))
         by (apply lookup_lt_Some in H; simpl in H; lia);
       subst w; rewrite Nat.sub_diag in H; injection H as <-;
       (split; [reflexivity|]).
  - left. exists rid, t. apply bool_decide_eq_true in Heqb. now repeat split.
  - right. destruct t0 as [d c]. simpl in Heqc. subst c.
    exists t, d, url, attempt. repeat split; [exact Heqo|].
    now destruct (isRunning s).
Qed.



(** ** The attempt counter *)

(** C2, as the code has it.  The attempt counter of a connection is the
    [attempt] argument of the openWebSocket call that constructed it, and
    it stays what it is for the life of the connection: no event, the
    successful open included, changes it or the url.  A connection gets
    its counter in one of two ways: 0 when startCapture constructs it
    (for a url the WebSocket constructor accepts), [n + 1] when the
    backoff timer of a connection with counter [n] constructs it.  On an
    unexpected close while the session is running, at whatever time, the
    reconnect is announced and scheduled after [min(2000 * 2^n, 12000)]
    ms for the counter [n] of the closed connection, and the connection
    the timer then constructs has counter [n + 1] for the same url.  So
    the delay is 2000 ms after the connection made by startCapture
    closes, and the next step of the backoff after a reconnection that
    succeeded. *)
Theorem attempt_fixed_per_connection (s : state) (w : nat) (ws : websocket)
    (evs : list event) :
  sockets s !! w = Some ws ->
  let later := (run evs s).1 in
  (exists ws', sockets later !! w = Some ws' /\
               ws_attempt ws' = ws_attempt ws /\ ws_url ws' = ws_url ws) /\
  (forall ws', sockets later !! w = Some ws' -> ws_readyState ws' <> CLOSED ->
     isRunning later = true ->
     (step (WsClose w) later).2 =
       [RuntimeSend (STATUS_UPDATE
                       (ReconnectingIn (reconnect_delay (ws_attempt ws)))
                       (lit "error"))] /\
     timers (step (WsClose w) later).1 !! next_timer later =
       Some {| delay := reconnect_delay (ws_attempt ws);
               cb := ReconnectNow (ws_url ws) (ws_attempt ws) |} /\
     wsReconnectTimer (step (WsClose w) later).1 = Some (next_timer later) /\
     sockets (run [WsClose w; TimerFired (next_timer later)] later).1
       !! length (sockets later) =
       Some {| ws_url := ws_url ws; ws_attempt := ws_attempt ws + 1;
               ws_readyState := CONNECTING; ws_t := S (next_timer later);
               ws_settled := false; ws_waiter := Reconnect_then |}) /\
  (forall ev w' new,
     sockets (step ev later).1 !! w' = Some new ->
     (length (sockets later) <= w')%nat ->
     (exists rid, ev = ScriptInjected rid None /\ ws_attempt new = 0%nat /\
                  ws_waiter new = StartCapture_await rid)
     \/
     (exists t d n,
        ev = TimerFired t /\
        timers later !! t =
          Some {| delay := d; cb := ReconnectNow (ws_url new) n |} /\
        ws_attempt new = (n + 1)%nat /\ ws_waiter new = Reconnect_then)) /\
  reconnect_delay 0 = 2000.
Proof.
  intros Hw later.
  destruct (run_keeps_connections evs s w ws Hw) as (ws1 & Hw1 & Hurl & Hatt & _).
  fold later in Hw1.
  split; [exists ws1; now repeat split|]. split; [|split; [|reflexivity]].
  - intros ws' Hw' Hopen Hrun.
    assert (ws' = ws1) as -> by congruence.
    pose proof (step_WsClose_running later w ws1 Hw1 Hopen Hrun) as Hclose.
    rewrite Hurl, Hatt in Hclose.
    assert (Ht : timers (step (WsClose w) later).1 !! next_timer later =
                 Some {| delay := reconnect_delay (ws_attempt ws);
                         cb := ReconnectNow (ws_url ws) (ws_attempt ws) |}).
    { rewrite Hclose. cbn. apply lookup_insert_eq. }
    split; [now rewrite Hclose|]. split; [exact Ht|].
    split; [now rewrite Hclose|].
    rewrite run_two.
    rewrite (step_reconnect_running _ _ _ _ _ Ht)
      by (rewrite Hclose; exact Hrun).
    rewrite Hclose. cbn.
    now rewrite lookup_app_r, length_alter, Nat.sub_diag
      by (rewrite length_alter; lia).
  - intros ev w' new Hnew Hle.
    destruct (step_new_connection ev later w' new Hnew Hle)
      as (_ & [(rid & tk & -> & _ & _ & ->)
              |(t & d & url & n & -> & Ht & _ & ->)]).
    + left. exists rid. now repeat split.
    + right. exists t, d, n. now repeat split.
Qed.

Lemma attempt_fixed_per_connection_witness :
  sockets connecting !! 0%nat = Some first_socket /\
  timers (step (WsClose 0) (run [WsOpen 0] connecting).1).1
    !! next_timer (run [WsOpen 0] connecting).1 =
    Some {| delay := reconnect_delay (ws_attempt first_socket);
            cb := ReconnectNow (ws_url first_socket) (ws_attempt first_socket) |}.
Proof.
  assert (H1 : sockets connecting !! 0%nat = Some first_socket)
    by (vm_compute; reflexivity).
  split; [exact H1|].
  pose proof (attempt_fixed_per_connection connecting 0 first_socket
                [WsOpen 0] H1) as H.
  cbv zeta in H. destruct H as (_ & Hclose & _).
  destruct (Hclose open_socket) as (_ & Ht & _);
    [vm_compute; reflexivity|discriminate|vm_compute; reflexivity|].
  exact Ht.
Defined.

(** The counter is not reset by a successful open: after one
    reconnection that succeeded, the socket has counter 1 and the next
    unexpected close schedules the reconnect after 4000 ms, not 2000. *)
Lemma attempt_not_reset_on_open :
  ws_readyState <$> sockets reconnected !! 1%nat = Some OPEN /\
  ws_attempt <$> sockets reconnected !! 1%nat = Some 1%nat /\
  delay <$> timers (step (WsClose 1) reconnected).1 !! 3%nat = Some 4000 /\
  4000 <> 2000.
Proof.
  split; [vm_compute; reflexivity|].
  split; [vm_compute; reflexivity|].
  split; [vm_compute; reflexivity|discriminate].
Qed.

(** ** Connect timeout during start *)

(** C3, at a start whose server does not answer.  The connection attempt
    of startCapture is aborted when its 7000 ms timer fires, and the
    start request is answered [{ok: false, error: "timeout"}], as the
    claim says.  But the session does not return to Idle: [isRunning]
    stays set and [socket] still refers to the aborted socket, so when
    the close event of that socket arrives a reconnect is scheduled after
    2000 ms and then carried out: a second WebSocket is constructed for a
    start that has failed.  The popup, given this answer, shows the
    session as not running. *)
Lemma start_timeout_leaves_session_running :
  (step (TimerFired 0) connecting).2 = [Respond 0 false (Some (lit "timeout"))] /\
  ws_readyState <$> sockets (step (TimerFired 0) connecting).1 !! 0%nat
    = Some CLOSING /\
  isRunning initial = false /\
  isRunning (step (TimerFired 0) connecting).1 = true /\
  socket (step (TimerFired 0) connecting).1 = Some 0%nat /\
  delay <$> timers (run [TimerFired 0; WsClose 0] connecting).1 !! 1%nat
    = Some 2000 /\
  length (sockets (run [TimerFired 0; WsClose 0; TimerFired 1] connecting).1)
    = 2%nat /\
  controls true clicked /\
  controls false
    (Popup.step
       (Popup.StartAnswered false (Some (false, Some (lit "timeout"))))
       clicked).1.
Proof.
  split; [vm_compute; reflexivity|].
  split; [vm_compute; reflexivity|].
  split; [vm_compute; reflexivity|].
  split; [vm_compute; reflexivity|].
  split; [vm_compute; reflexivity|].
  split; [vm_compute; reflexivity|].
  split; [vm_compute; reflexivity|].
  split; now repeat split.
Qed.

(** ** Stop and the backoff timer *)




End Channel.

(* ================================================================== *)
(** * Stop is idempotent *)

Section Stop.

Lemma background_stop_twice (s : Background.state) (r1 r2 : string) :
  (Background.stopCapture r2 (Background.stopCapture r1 s).1).1 =
  (Background.stopCapture r1 s).1.
Proof.
  rewrite (stopCapture_state r2), (stopCapture_state r1). simpl.
  destruct (Background.wsReconnectTimer s); [|reflexivity].
  now rewrite delete_delete_eq.
Qed.

Lemma offscreen_stop_twice (so : Offscreen.state) :
  Offscreen.stopCapture (Offscreen.stopCapture so).1 =
  ((Offscreen.stopCapture so).1, []).
Proof. reflexivity. Qed.

(** C6.  Stop is idempotent.  In the controller, a second stopCapture
    leaves the state reached by the first.  In the capturer, a second
    stopCapture changes nothing and calls nothing: no recorder stop, no
    pause, no second [track.stop()]; the STOP_CAPTURE message the
    controller sends again is only answered.  Stopping a capturer that
    was never started is a no-op, and stopping an idle controller leaves
    its state as it is. *)
Theorem stop_idempotent (s : Background.state) (so : Offscreen.state)
    (r1 r2 : string) :
  (Background.stopCapture r2 (Background.stopCapture r1 s).1).1 =
    (Background.stopCapture r1 s).1 /\
  Offscreen.stopCapture (Offscreen.stopCapture so).1 =
    ((Offscreen.stopCapture so).1, []) /\
  Offscreen.onMessage_STOP_CAPTURE (Offscreen.onMessage_STOP_CAPTURE so).1 =
    ((Offscreen.onMessage_STOP_CAPTURE so).1, [Offscreen.Respond true None]) /\
  Offscreen.stopCapture Offscreen.initial = (Offscreen.initial, []) /\
  (Background.stopCapture r1 Background.initial).1 = Background.initial.
Proof.
  split; [apply background_stop_twice|].
  split; [apply offscreen_stop_twice|].
  split; [|split; reflexivity].
  unfold Offscreen.onMessage_STOP_CAPTURE.
  destruct (Offscreen.stopCapture so) as [s1 e1] eqn:E1. cbn [fst].
  assert (H : Offscreen.stopCapture s1 = (s1, [])).
  { pose proof (offscreen_stop_twice so) as H. now rewrite E1 in H. }
  now rewrite H.
Qed.

End Stop.

(* ================================================================== *)
(** * Captions *)

Section Captions.

Lemma trimStart_blank (s : jsstring) : blank s -> trimStart s = [].
Proof.
  induction 1 as [|c s Hc _ IH]; [reflexivity|]. simpl. now rewrite Hc.
Qed.

Lemma trim_blank (s : jsstring) : blank s -> trim s = [].
Proof. intros H. unfold trim. now rewrite (trimStart_blank s H). Qed.

(** C7.  A subtitle event whose text is empty or consists of whitespace
    only is dropped.  In the controller, handleServerMessage relays
    nothing for it: no SUBTITLE message to the tab, no preview, nothing
    stored; its state is unchanged, and the only effect there can be is
    the status line of an event tagged 'error'.  In the renderer, a
    SUBTITLE message with such a text does not reach showSubtitle: the
    overlay and its timer are unchanged. *)
Theorem blank_subtitle_dropped (s : Background.state) (cs : ContentScript.state)
    (now : Z) (msg : jsval) (text : jsstring) :
  blank text -> get_field (lit "text") msg = Some (VStr text) ->
  (Background.handleServerMessage (Some msg) s).1 = s /\
  ((Background.handleServerMessage (Some msg) s).2 = [] \/
   exists v, (Background.handleServerMessage (Some msg) s).2 =
     [Background.RuntimeSend
        (Background.STATUS_UPDATE (Background.Prefixed (lit "backend: ") v)
           (lit "error"))]) /\
  (forall ev, get_field (lit "event") msg = Some ev ->
              is_str ev (lit "subtitle") = true ->
              Background.handleServerMessage (Some msg) s = (s, [])) /\
  ContentScript.onMessage now (ContentScript.SUBTITLE (VStr text)) cs = cs.
Proof.
  intros Hblank Htext.
  assert (Hmsg : exists ev, get_field (lit "event") msg = Some ev).
  { destruct msg; try discriminate; eauto. }
  destruct Hmsg as [ev Hev].
  assert (Hcore : Background.handleServerMessage (Some msg) s =
                  (if is_str ev (lit "error")
                   then Background.notifyStatus
                          (Background.Prefixed (lit "backend: ")
                             (default VUndefined (get_field (lit "message") msg)))
                          "error"
                   else Background.skip) s).
  { unfold Background.handleServerMessage. rewrite Hev, Htext.
    destruct (is_str ev (lit "subtitle") && truthy (VStr text)); [|reflexivity].
    now rewrite (trim_blank text Hblank). }
  rewrite Hcore. split; [|split; [|split]].
  - now destruct (is_str ev (lit "error")).
  - destruct (is_str ev (lit "error")); [right; eexists; reflexivity|now left].
  - intros ev' Hev' Hsub. rewrite Hev in Hev'. injection Hev' as <-.
    destruct ev; try discriminate. simpl in Hsub |- *.
    apply bool_decide_eq_true in Hsub. subst s0. reflexivity.
  - simpl. now rewrite (trim_blank text Hblank).
Qed.

Lemma blank_subtitle_dropped_witness :
  blank (lit "   ") /\
  Background.handleServerMessage
    (Some (VObj [(lit "event", VStr (lit "subtitle"));
                 (lit "text", VStr (lit "   "));
                 (lit "start", VNum 0); (lit "end", VNum 5)])) live = (live, []) /\
  ContentScript.onMessage 0 (ContentScript.SUBTITLE (VStr (lit "   ")))
    ContentScript.initial = ContentScript.initial.
Proof.
  assert (Hb : blank (lit "   ")) by (repeat constructor).
  split; [exact Hb|].
  pose proof (blank_subtitle_dropped live ContentScript.initial 0
    (VObj [(lit "event", VStr (lit "subtitle"));
           (lit "text", VStr (lit "   "));
           (lit "start", VNum 0); (lit "end", VNum 5)])
    (lit "   ") Hb eq_refl) as (_ & _ & Hsub & Hcs).
  split; [|exact Hcs].
  exact (Hsub (VStr (lit "subtitle")) eq_refl eq_refl).
Defined.

Lemma overlay_ok_initial : overlay_ok ContentScript.initial.
Proof.
  split.
  - intros t due H. simpl in H. now rewrite lookup_empty in H.
  - intros t H. discriminate H.
Qed.

Lemma clearTimeout_hideTimer (s : ContentScript.state) :
  overlay_ok s ->
  ContentScript.clearTimeout (ContentScript.hideTimer s) (ContentScript.timers s) = ∅.
Proof.
  intros [Hok _]. apply map_eq. intros i. rewrite lookup_empty.
  unfold ContentScript.clearTimeout.
  destruct (ContentScript.hideTimer s) as [t|] eqn:Ht.
  - destruct (decide (t = i)) as [->|Hne]; [apply lookup_delete_eq|].
    rewrite lookup_delete_ne by exact Hne.
    destruct (ContentScript.timers s !! i) as [due|] eqn:E; [|reflexivity].
    pose proof (Hok i due E). congruence.
  - destruct (ContentScript.timers s !! i) as [due|] eqn:E; [|reflexivity].
    pose proof (Hok i due E). congruence.
Qed.

Lemma overlay_ok_showSubtitle (now : Z) (text : jsstring) (s : ContentScript.state) :
  overlay_ok s -> overlay_ok (ContentScript.showSubtitle now text s).
Proof.
  intros Hok. split; simpl.
  - intros t due. rewrite (clearTimeout_hideTimer s Hok).
    intros H. apply lookup_insert_Some in H as [[<- _]|[_ H]]; [reflexivity|].
    now rewrite lookup_empty in H.
  - intros t [= <-]. lia.
Qed.

Lemma overlay_ok_step (now : Z) (ev : ContentScript.event) (s : ContentScript.state) :
  overlay_ok s -> overlay_ok (ContentScript.step now ev s).
Proof.
  intros Hok. destruct ev as [[text| |fs pos]|t]; simpl.
  - destruct text as [| | | |t|]; try exact Hok.
    destruct (negb (bool_decide (trim t = []))); [|exact Hok].
    now apply overlay_ok_showSubtitle.
  - split; simpl.
    + intros t due. rewrite (clearTimeout_hideTimer s Hok).
      now rewrite lookup_empty.
    + apply Hok.
  - exact Hok.
  - unfold ContentScript.fire.
    destruct (ContentScript.timers s !! t) as [due|] eqn:E; [|exact Hok].
    destruct (due <=? now); [|exact Hok].
    split; simpl.
    + intros t' due' H. apply lookup_delete_Some in H as [_ H].
      exact (proj1 Hok t' due' H).
    + apply Hok.
Qed.

(** C8.  A SUBTITLE message whose trimmed text is not empty shows that
    text and (re)starts the presentation timer: the timer pending before,
    whatever time it had left, is cancelled, and the only pending timer
    is the new one, due [max(2500, L * 55)] ms from now, [L] the length of
    the displayed text.  The caption is shown for exactly that long: no
    timer expiry before the due time changes anything (the timer of the
    caption shown before can no longer act at all), and the expiry of the
    new timer at its due time hides the overlay.  For [L = 10] this is
    2500 ms, for [L = 60] it is 3300 ms. *)
Theorem caption_timer (s : ContentScript.state) (now : Z) (text : jsstring) :
  overlay_ok s -> trim text <> [] ->
  let shown := trim text in
  let s' := ContentScript.onMessage now (ContentScript.SUBTITLE (VStr text)) s in
  let t := ContentScript.next_timer s in
  let due := now + Z.max 2500 (Z.of_nat (length shown) * 55) in
  ContentScript.textContent s' = shown /\
  ContentScript.hls_visible s' = true /\
  ContentScript.hideTimer s' = Some t /\
  ContentScript.timers s' = {[ t := due ]} /\
  (forall old, ContentScript.hideTimer s = Some old ->
               ContentScript.timers s' !! old = None) /\
  (forall at_ t', t' <> t -> ContentScript.fire at_ t' s' = s') /\
  (forall at_, at_ < due -> ContentScript.fire at_ t s' = s') /\
  (forall at_, due <= at_ ->
     ContentScript.hls_visible (ContentScript.fire at_ t s') = false /\
     ContentScript.textContent (ContentScript.fire at_ t s') = shown /\
     ContentScript.timers (ContentScript.fire at_ t s') = ∅) /\
  (length shown = 10%nat -> due = now + 2500) /\
  (length shown = 60%nat -> due = now + 3300) /\
  overlay_ok s'.
Proof.
  intros Hok Htext shown s' t due.
  assert (Hs' : s' = ContentScript.showSubtitle now shown s).
  { unfold s'. simpl. fold shown.
    destruct (bool_decide (shown = [])) eqn:E; [|reflexivity].
    apply bool_decide_eq_true in E. contradiction. }
  assert (Htimers : ContentScript.timers s' = {[ t := due ]}).
  { rewrite Hs'. simpl. rewrite (clearTimeout_hideTimer s Hok).
    apply insert_empty. }
  assert (Hvis : ContentScript.hls_visible s' = true) by now rewrite Hs'.
  assert (Htxt : ContentScript.textContent s' = shown) by now rewrite Hs'.
  split; [exact Htxt|]. split; [exact Hvis|].
  split; [now rewrite Hs'|]. split; [exact Htimers|].
  split; [|split; [|split; [|split; [|split; [|split]]]]].
  - intros old Hold. rewrite Htimers. apply lookup_singleton_ne.
    pose proof (proj2 Hok old Hold). unfold t. lia.
  - intros at_ t' Hne. unfold ContentScript.fire.
    rewrite Htimers, lookup_singleton_ne by congruence. reflexivity.
  - intros at_ Hat. unfold ContentScript.fire.
    rewrite Htimers, lookup_singleton_eq.
    destruct (due <=? at_) eqn:E; [apply Z.leb_le in E; lia|reflexivity].
  - intros at_ Hat. unfold ContentScript.fire.
    rewrite Htimers, lookup_singleton_eq.
    destruct (due <=? at_) eqn:E; [|apply Z.leb_gt in E; lia].
    cbn. split; [reflexivity|]. split; [exact Htxt|].
    apply delete_singleton_eq.
  - intros HL. unfold due. rewrite HL. reflexivity.
  - intros HL. unfold due. rewrite HL. reflexivity.
  - rewrite Hs'. now apply overlay_ok_showSubtitle.
Qed.

Lemma caption_timer_witness :
  overlay_ok showing /\
  trim (lit " Good evening and welcome back to the programme, everyone  ") <> [] /\
  ContentScript.timers
    (ContentScript.onMessage 1000
       (ContentScript.SUBTITLE
          (VStr (lit " Good evening and welcome back to the programme, everyone  ")))
       showing) =
    {[ ContentScript.next_timer showing :=
         1000 + Z.max 2500
           (Z.of_nat (length
              (trim (lit " Good evening and welcome back to the programme, everyone  ")))
            * 55) ]}.
Proof.
  assert (Hok : overlay_ok showing).
  { apply (overlay_ok_step 0 _ ContentScript.initial), overlay_ok_initial. }
  assert (Hne : trim (lit " Good evening and welcome back to the programme, everyone  ")
                <> []) by (vm_compute; discriminate).
  split; [exact Hok|]. split; [exact Hne|].
  pose proof (caption_timer showing 1000 _ Hok Hne) as H.
  cbv zeta in H. exact (proj1 (proj2 (proj2 (proj2 H)))).
Defined.

End Captions.

(* ================================================================== *)
(** * The capturer: scan, numbering, sessions *)

Section Capturer.
Import Offscreen.

Lemma marker_at_none_past_end (view : list byte) (j : nat) :
  (length view <= j + 3)%nat -> marker_at view j = false.
Proof.
  intros Hj. destruct (marker_at view j) eqn:E; [|reflexivity].
  apply marker_at_in_range in E. lia.
Qed.

(** What the loop returns from index [i] with [fuel] iterations. *)
Lemma scan_result (view : list byte) (fuel : nat) :
  forall i,
    (exists k, scan view fuel i = Z.of_nat k /\ (i <= k)%nat /\
               marker_at view k = true /\
               forall j, (i <= j < k)%nat -> marker_at view j = false)
    \/ (scan view fuel i = -1 /\
        forall j, (i <= j < i + fuel)%nat -> marker_at view j = false).
Proof.
  induction fuel as [|fuel IH]; intros i; simpl.
  - right. split; [reflexivity|]. intros j Hj. lia.
  - destruct (Z.ltb_spec (Z.of_nat i) (Z.of_nat (length view) - 3)) as [Hin|Hout].
    + destruct (marker_at view i) eqn:Hm.
      * left. exists i. split; [reflexivity|]. split; [lia|]. split; [exact Hm|].
        intros j Hj. lia.
      * destruct (IH (S i)) as [(k & Hk & Hle & Hmk & Hbefore)|[Hnone Hall]].
        -- left. exists k. split; [exact Hk|]. split; [lia|]. split; [exact Hmk|].
           intros j Hj. destruct (decide (j = i)) as [->|Hne]; [exact Hm|].
           apply Hbefore. lia.
        -- right. split; [exact Hnone|]. intros j Hj.
           destruct (decide (j = i)) as [->|Hne]; [exact Hm|]. apply Hall. lia.
    + right. split; [reflexivity|]. intros j Hj.
      apply marker_at_none_past_end. lia.
Qed.

(** X1.  findClusterOffset returns -1 exactly when the marker
    1F 43 B6 75 does not occur in the buffer; otherwise it returns the
    offset of the first occurrence, which leaves room for the four marker
    bytes.  Buffers shorter than four bytes give -1. *)
Theorem findClusterOffset_characterised (buffer : list byte) :
  (findClusterOffset buffer = -1 <-> absent buffer) /\
  (forall k : nat, findClusterOffset buffer = Z.of_nat k <-> first_at buffer k) /\
  -1 <= findClusterOffset buffer <= Z.max (-1) (Z.of_nat (length buffer) - 4) /\
  ((length buffer < 4)%nat -> findClusterOffset buffer = -1).
Proof.
  assert (Hcases : (exists k, findClusterOffset buffer = Z.of_nat k /\ first_at buffer k)
                   \/ (findClusterOffset buffer = -1 /\ absent buffer)).
  { unfold findClusterOffset.
    destruct (scan_result buffer (length buffer) 0)
      as [(k & Hk & _ & Hmk & Hbefore)|[Hnone Hall]].
    - left. exists k. split; [exact Hk|]. split; [now apply marker_at_occurs|].
      intros j Hj Hocc. apply marker_at_occurs in Hocc.
      rewrite Hbefore in Hocc by lia. discriminate.
    - right. split; [exact Hnone|]. intros j Hocc. apply marker_at_occurs in Hocc.
      pose proof (marker_at_in_range _ _ Hocc).
      rewrite Hall in Hocc by lia. discriminate. }
  split; [|split; [|split]].
  - split; [|apply findClusterOffset_absent].
    intros Hr. destruct Hcases as [(k & Hk & _)|[_ Habs]]; [exfalso; lia|exact Habs].
  - intros k. split; [|apply findClusterOffset_first].
    intros Hr. destruct Hcases as [(k' & Hk' & Hfirst)|[Hnone _]]; [|exfalso; lia].
    assert (k' = k) as -> by lia. exact Hfirst.
  - destruct Hcases as [(k & -> & [Hocc _])|[-> _]]; [|lia].
    apply marker_at_occurs, marker_at_in_range in Hocc. lia.
  - intros Hshort. destruct Hcases as [(k & _ & [Hocc _])|[Hnone _]]; [|exact Hnone].
    apply marker_at_occurs, marker_at_in_range in Hocc. lia.
Qed.

Lemma segment_metadata_advance (rec : recorder) (i : nat) :
  segment_metadata (advance rec) i = segment_metadata rec (S i).
Proof.
  unfold segment_metadata, advance. simpl. rewrite Nat2Z.inj_succ.
  f_equal; [lia| |].
  - rewrite <- Z.add_assoc. f_equal. ring.
  - rewrite <- Z.add_assoc. f_equal. ring.
Qed.

Lemma segment_metadata_zero (rec : recorder) :
  segment_metadata rec 0 =
  {| md_index := chunkIndex rec; md_start := chunkStartSec rec;
     md_end := chunkStartSec rec + chunkMs rec / 1000;
     md_mimeType := mimeType rec |}.
Proof.
  unfold segment_metadata. simpl. f_equal; [lia|lia|].
  destruct (chunkMs rec / 1000); reflexivity.
Qed.

Lemma run_blocks_metadata (r : nat) (bs : list (list byte)) :
  forall (rec : recorder) (s : state),
    recorders s !! r = Some rec ->
    sent_metadata (run_blocks r (map Some bs) s).2 =
      map (segment_metadata rec)
          (seq 0 (length (filter (fun b => (1 <= length b)%nat) bs))).
Proof.
  induction bs as [|b bs IH]; intros rec s Hr; [reflexivity|].
  cbn [map run_blocks].
  destruct (decide (1 <= length b)%nat) as [Hb|Hb].
  - rewrite (ondataavailable_block r rec s b Hr Hb).
    match goal with |- context [run_blocks r _ ?s1] =>
      pose proof (IH (advance rec) s1) as IH1 end.
    destruct (run_blocks r (map Some bs) _) as [s2 e2]. simpl in IH1 |- *.
    rewrite filter_cons_True by exact Hb. simpl.
    unfold sent_metadata in *. simpl.
    rewrite IH1 by (apply list_lookup_insert_eq; eapply lookup_lt_Some; eauto).
    rewrite <- segment_metadata_zero. f_equal.
    rewrite <- seq_shift, map_map. apply map_ext. intros i.
    apply segment_metadata_advance.
  - assert (b = []) as -> by (destruct b; [reflexivity|simpl in Hb; lia]).
    rewrite ondataavailable_empty. pose proof (IH rec s Hr) as IH1.
    destruct (run_blocks r (map Some bs) s) as [s2 e2]. simpl in IH1 |- *.
    now rewrite filter_cons_False by exact Hb.
Qed.

(** X2.  Segment numbering and timeline.  The metadata of the segments a
    recorder sends are numbered consecutively from its [chunkIndex], and
    each covers [chunkMs / 1000] seconds starting where the previous one
    ended: no gap in the indices, no gap in the timeline, whatever the
    blocks contain.  Blocks of size 0 use up neither an index nor time. *)
Theorem segments_contiguous (r : nat) (rec : recorder) (s : state)
    (bs : list (list byte)) :
  recorders s !! r = Some rec ->
  let sent := sent_metadata (run_blocks r (map Some bs) s).2 in
  sent = map (segment_metadata rec)
             (seq 0 (length (filter (fun b => (1 <= length b)%nat) bs))) /\
  (forall i m m', sent !! i = Some m -> sent !! S i = Some m' ->
                  md_index m' = S (md_index m) /\ md_start m' = md_end m).
Proof.
  intros Hr sent.
  assert (Hsent : sent = map (segment_metadata rec)
            (seq 0 (length (filter (fun b => (1 <= length b)%nat) bs))))
    by now apply run_blocks_metadata.
  split; [exact Hsent|].
  intros i m m' Hi Hsi. rewrite Hsent in Hi, Hsi.
  rewrite list_lookup_fmap in Hi, Hsi.
  destruct (seq 0 _ !! i) as [a|] eqn:Ea; [|discriminate].
  destruct (seq 0 _ !! S i) as [b|] eqn:Eb; [|discriminate].
  apply lookup_seq in Ea as [-> _]. apply lookup_seq in Eb as [-> _].
  simpl in Hi, Hsi. injection Hi as <-. injection Hsi as <-.
  unfold segment_metadata. simpl. split; [lia|].
  rewrite Nat2Z.inj_succ. lia.
Qed.

Lemma segments_contiguous_witness :
  recorders capturing !! 0%nat = Some fresh_recorder /\
  sent_metadata
    (run_blocks 0 (map Some [[x1a; x45]; []; [x01]; [x02; x03]]) capturing).2 =
  map (segment_metadata fresh_recorder)
      (seq 0 (length (filter (fun b => (1 <= length b)%nat)
                        [[x1a; x45]; []; [x01]; [x02; x03]]))).
Proof.
  assert (H : recorders capturing !! 0%nat = Some fresh_recorder)
    by (vm_compute; reflexivity).
  split; [exact H|].
  exact (proj1 (segments_contiguous 0 fresh_recorder capturing
                  [[x1a; x45]; []; [x01]; [x02; x03]] H)).
Defined.

(** The trace of a recorder's blocks depends on the state only through
    the recorder's closure and the cached header. *)
Lemma run_blocks_depends (blocks : list (option (list byte))) :
  forall (r1 r2 : nat) (s1 s2 : state) (rec : recorder),
    recorders s1 !! r1 = Some rec -> recorders s2 !! r2 = Some rec ->
    webmHeader s1 = webmHeader s2 ->
    (run_blocks r1 blocks s1).2 = (run_blocks r2 blocks s2).2.
Proof.
  induction blocks as [|[b|] blocks IH]; intros r1 r2 s1 s2 rec H1 H2 Hh;
    [reflexivity| |].
  - cbn [run_blocks]. destruct (decide (1 <= length b)%nat) as [Hb|Hb].
    + rewrite (ondataavailable_block r1 rec s1 b H1 Hb),
        (ondataavailable_block r2 rec s2 b H2 Hb), Hh.
      match goal with
      | |- context [run_blocks r1 blocks ?t1] =>
          match goal with
          | |- context [run_blocks r2 blocks ?t2] =>
              pose proof (IH r1 r2 t1 t2 (advance rec)) as IH'
          end
      end.
      destruct (run_blocks r1 blocks _) as [t1 e1].
      destruct (run_blocks r2 blocks _) as [t2 e2]. simpl in IH' |- *.
      rewrite IH'; [reflexivity| | |].
      * apply list_lookup_insert_eq. eapply lookup_lt_Some; eauto.
      * apply list_lookup_insert_eq. eapply lookup_lt_Some; eauto.
      * reflexivity.
    + assert (b = []) as -> by (destruct b; [reflexivity|simpl in Hb; lia]).
      rewrite !ondataavailable_empty. pose proof (IH r1 r2 s1 s2 rec H1 H2 Hh) as IH'.
      destruct (run_blocks r1 blocks s1) as [t1 e1].
      destruct (run_blocks r2 blocks s2) as [t2 e2]. simpl in IH' |- *.
      now rewrite IH'.
  - cbn [run_blocks].
    change (ondataavailable r1 None s1) with (s1, @nil effect).
    change (ondataavailable r2 None s2) with (s2, @nil effect).
    cbn [fst snd app]. pose proof (IH r1 r2 s1 s2 rec H1 H2 Hh) as IH'.
    destruct (run_blocks r1 blocks s1) as [t1 e1].
    destruct (run_blocks r2 blocks s2) as [t2 e2]. simpl in IH' |- *.
    congruence.
Qed.

(** X3.  A new recorder starts from scratch.  startCapture resets the
    cached header and gives the new recorder fresh counters, so what the
    new recorder sends for its blocks (payloads and metadata), handled
    one after the other with no block of an older recorder in between,
    is what the same blocks give in a capturer that has never run,
    whatever header or recorders earlier sessions left.  ([webmHeader]
    is one variable for all recorders: a block of an older recorder
    handled after the start is outside this statement.) *)
Theorem session_independent_of_history (isTypeSupported : jsstring -> bool)
    (config : start_config) (streamId : jsstring) (str : stream) (s : state)
    (blocks : list (option (list byte))) :
  let start := fun s0 =>
    (startCapture_resume isTypeSupported config (inl str)
       (startCapture_begin streamId s0).1).1 in
  (run_blocks (length (recorders s)) blocks (start s)).2 =
  (run_blocks 0 blocks (start initial)).2.
Proof.
  intros start. eapply run_blocks_depends.
  - unfold start. simpl. now rewrite lookup_app_r, Nat.sub_diag by lia.
  - reflexivity.
  - reflexivity.
Qed.

(** X4.  Stop releases what start acquired.  After a successful
    startCapture on stream [str], stopCapture stops the recorder, pauses
    the playback element and stops every track of [str], each once and in
    this order; it leaves no recorder, stream, audio element or header
    referenced, and the recorder inactive. *)
Theorem stop_releases_what_start_acquired (isTypeSupported : jsstring -> bool)
    (config : start_config) (streamId : jsstring) (str : stream) (s : state) :
  let started :=
    (startCapture_resume isTypeSupported config (inl str)
       (startCapture_begin streamId s).1).1 in
  let r := length (recorders s) in
  (stopCapture started).2 = [RecorderStop r; AudioPause] ++ map TrackStop str /\
  mediaRecorder (stopCapture started).1 = None /\
  captureStream (stopCapture started).1 = None /\
  liveAudio (stopCapture started).1 = None /\
  webmHeader (stopCapture started).1 = None /\
  r_state <$> recorders (stopCapture started).1 !! r = Some Inactive.
Proof.
  intros started r. unfold started, stopCapture. simpl.
  rewrite lookup_app_r, Nat.sub_diag by lia. simpl.
  split; [reflexivity|]. repeat (split; [reflexivity|]).
  rewrite list_lookup_insert_eq by (rewrite length_app; simpl; lia).
  reflexivity.
Qed.

(** X5.  A block handled after stopCapture (the last data a recorder
    hands over when it is stopped) finds no cached header: it is sent as
    it is, under the next index of its recorder, even when the session had
    spliced a header onto every block before. *)
Theorem block_after_stop_is_unspliced (s : state) (r : nat) (rec : recorder)
    (block : list byte) :
  recorders s !! r = Some rec -> (1 <= length block)%nat ->
  (ondataavailable r (Some block) (stopCapture s).1).2 =
    [SendMessage (AUDIO_CHUNK (base64_of block) (segment_metadata rec 0))].
Proof.
  intros Hr Hb.
  destruct (stopCapture_keeps_closure s r rec Hr) as (rec' & Hr' & Hi & Hs & Hm & Ht).
  rewrite (ondataavailable_block r rec' _ block Hr' Hb). simpl.
  rewrite segment_metadata_zero, Hi, Hs, Hm, Ht.
  assert (Hd : (splice (chunkIndex rec) None block).1 = block).
  { unfold splice. destruct (chunkIndex rec =? 0)%nat; [|reflexivity].
    now destruct (0 <? findClusterOffset block). }
  now rewrite Hd.
Qed.

Lemma block_after_stop_is_unspliced_witness :
  recorders spliced !! 0%nat = Some (advance fresh_recorder) /\
  webmHeader spliced = Some [x1a; x45] /\
  (ondataavailable 0 (Some [x02; x03]) (stopCapture spliced).1).2 =
    [SendMessage (AUDIO_CHUNK (base64_of [x02; x03])
                    (segment_metadata (advance fresh_recorder) 0))].
Proof.
  assert (H : recorders spliced !! 0%nat = Some (advance fresh_recorder))
    by (vm_compute; reflexivity).
  split; [exact H|]. split; [vm_compute; reflexivity|].
  apply (block_after_stop_is_unspliced spliced 0 (advance fresh_recorder)
           [x02; x03] H).
  simpl. lia.
Defined.

Lemma find_first {A : Type} (f : A -> bool) (l : list A) (x : A) :
  find f l = Some x ->
  f x = true /\ exists pre post, l = pre ++ x :: post /\
                                 Forall (fun c => f c = false) pre.
Proof.
  induction l as [|a l IH]; [discriminate|]. simpl.
  destruct (f a) eqn:Ea.
  - intros [= ->]. split; [exact Ea|]. exists [], l. split; [reflexivity|constructor].
  - intros H. destruct (IH H) as (Hx & pre & post & -> & Hpre).
    split; [exact Hx|]. exists (a :: pre), post. split; [reflexivity|].
    constructor; assumption.
Qed.

(** X6.  getSupportedMimeType returns the first type of its preference
    list (webm/opus, webm, ogg/opus, ogg) that the host supports: the
    result is supported and every type listed before it is not.  When
    the host supports none of them the result is the empty string. *)
Theorem getSupportedMimeType_first_supported (isTypeSupported : jsstring -> bool) :
  let t := getSupportedMimeType isTypeSupported in
  (isTypeSupported t = true /\
   exists pre post, mime_candidates = pre ++ t :: post /\
                    Forall (fun c => isTypeSupported c = false) pre)
  \/ (t = [] /\ Forall (fun c => isTypeSupported c = false) mime_candidates).
Proof.
  intros t. unfold t, getSupportedMimeType.
  destruct (find isTypeSupported mime_candidates) as [x|] eqn:E.
  - left. now apply find_first.
  - right. split; [reflexivity|]. apply Forall_forall. intros c Hc.
    apply list_elem_of_In in Hc. exact (find_none _ _ E c Hc).
Qed.

Lemma length_encode_exact (l : list N) :
  length (Base64.encode l) = (4 * ((length l + 2) / 3))%nat.
Proof.
  induction l as [| a | a b | a b c l IH] using list_ind3; try reflexivity.
  cbn [Base64.encode length]. rewrite IH.
  replace (S (S (S (length l))) + 2)%nat with ((length l + 2) + 1 * 3)%nat by lia.
  rewrite Nat.div_add by lia. lia.
Qed.

(** X7.  arrayBufferToBase64 never throws; its text has
    [4 * ceil(n / 3)] characters for a buffer of [n] bytes; and two
    buffers with the same text are the same buffer. *)
Theorem arrayBufferToBase64_faithful (buffer : list byte) :
  arrayBufferToBase64 buffer = Some (base64_of buffer) /\
  length (base64_of buffer) = (4 * ((length buffer + 2) / 3))%nat /\
  (forall other, arrayBufferToBase64 other = arrayBufferToBase64 buffer ->
                 other = buffer).
Proof.
  split; [apply arrayBufferToBase64_total|]. split.
  - unfold base64_of. rewrite length_encode_exact. unfold binary_string.
    now rewrite length_map.
  - intros other H. rewrite !arrayBufferToBase64_total in H. injection H as H.
    rewrite <- (to_uint8_binary_string other), <- (to_uint8_binary_string buffer).
    f_equal.
    pose proof (atob_base64_of other) as Ho. rewrite H, atob_base64_of in Ho.
    now injection Ho as <-.
Qed.

End Capturer.

(* ================================================================== *)
(** * The controller: messages, start, tab events *)

Section Controller.
Import Background.
Local Open Scope action_scope.

Ltac unfold_handlers :=
  unfold step, startCapture, ws_onopen, ws_onerror, ws_onclose, connect_timeout,
    reconnect_now, settle, openWebSocket, startCapture_connected,
    startCapture_throw, startCapture_pause, set_stage, resume, stopCapture,
    notifyStatus, setTimeout, clearTimeout, ws_close, read, andthen, update,
    emit, skip.

(** X8.  handleAudioChunk writes a segment as a pair or not at all: it
    never changes the controller's state, and it either writes nothing
    (no socket, a socket that is not open, or a chunk that is not valid
    base64) or writes to the current socket, which is open, exactly the
    metadata record followed by the decoded bytes. *)
Theorem audio_chunk_pair_or_nothing (chunk : jsstring) (metadata : chunk_metadata)
    (s : state) :
  (handleAudioChunk chunk metadata s).1 = s /\
  ((handleAudioChunk chunk metadata s).2 = [] \/
   exists w binaryString,
     socket s = Some w /\ ws_readyState <$> sockets s !! w = Some OPEN /\
     Base64.atob chunk = Some binaryString /\
     (handleAudioChunk chunk metadata s).2 =
       [SocketSend w (ChunkRecord metadata);
        SocketSend w (Binary (map to_uint8 binaryString))]) /\
  (socket s = None -> (handleAudioChunk chunk metadata s).2 = []) /\
  (Base64.atob chunk = None -> (handleAudioChunk chunk metadata s).2 = []) /\
  (forall w, socket s = Some w ->
             ws_readyState <$> sockets s !! w <> Some OPEN ->
             (handleAudioChunk chunk metadata s).2 = []).
Proof.
  unfold handleAudioChunk, read.
  destruct (socket s) as [w|] eqn:Hs; [|cbn; intuition discriminate].
  destruct (ws_readyState <$> sockets s !! w) as [[| | |]|] eqn:Hw;
    try (cbn; repeat split; auto; intros [=]).
  destruct (Base64.atob chunk) as [bin|] eqn:Ha; cbn.
  - split; [reflexivity|]. split.
    + right. exists w, bin. rewrite Hw. auto.
    + split; [discriminate|]. split; [discriminate|].
      intros w' [= <-] Hne. now rewrite Hw in Hne.
  - repeat split; auto.
Qed.

(** X9.  handleServerMessage never changes the controller's state, so a
    message leaves the connection as it is.  A frame that is not JSON, the
    value [null], and a record whose [event] is neither 'subtitle' nor
    'error' have no effect at all; a record tagged 'error' gives exactly
    one status line, ['backend: ' + message] with state 'error'. *)
Theorem server_message_keeps_state (parsed : option jsval) (s : state) :
  (handleServerMessage parsed s).1 = s /\
  handleServerMessage None s = (s, []) /\
  handleServerMessage (Some VNull) s = (s, []) /\
  (forall msg ev,
     get_field (lit "event") msg = Some ev ->
     is_str ev (lit "subtitle") = false -> is_str ev (lit "error") = false ->
     handleServerMessage (Some msg) s = (s, [])) /\
  (forall msg,
     get_field (lit "event") msg = Some (VStr (lit "error")) ->
     handleServerMessage (Some msg) s =
       (s, [RuntimeSend
              (STATUS_UPDATE
                 (Prefixed (lit "backend: ")
                    (default VUndefined (get_field (lit "message") msg)))
                 (lit "error"))])).
Proof.
  split; [|split; [reflexivity|split; [reflexivity|split]]].
  - unfold handleServerMessage. destruct parsed as [msg|]; [|reflexivity].
    destruct (get_field (lit "event") msg) as [ev|]; [|reflexivity].
    destruct (get_field (lit "text") msg) as [text|]; [|reflexivity].
    destruct (is_str ev (lit "subtitle") && truthy text);
      [destruct text; try reflexivity;
       destruct (truthy (VStr (trim s0)))|];
      unfold_handlers; cbn;
      destruct (currentTabId s), (is_str ev (lit "error")); reflexivity.
  - intros msg ev Hev Hsub Herr. unfold handleServerMessage. rewrite Hev.
    assert (exists text, get_field (lit "text") msg = Some text) as [text ->]
      by (destruct msg; try discriminate; eauto).
    now rewrite Hsub, Herr.
  - intros msg Hev. unfold handleServerMessage. rewrite Hev.
    assert (exists text, get_field (lit "text") msg = Some text) as [text ->]
      by (destruct msg; try discriminate; eauto).
    reflexivity.
Qed.

Lemma trimStart_nil_blank (s : jsstring) : trimStart s = [] -> blank s.
Proof.
  induction s as [|c s IH]; [constructor|]. simpl.
  destruct (is_white_space c) eqn:Ec; [|discriminate].
  intros H. constructor; [exact Ec|now apply IH].
Qed.

Lemma trimStart_blank_nil (s : jsstring) : blank (trimStart s) -> trimStart s = [].
Proof.
  induction s as [|c s IH]; [reflexivity|]. simpl.
  destruct (is_white_space c) eqn:Ec; [exact IH|].
  intros H. inversion H; congruence.
Qed.

Lemma blank_rev (s : jsstring) : blank (rev s) -> blank s.
Proof.
  unfold blank. rewrite !Forall_forall. intros H c Hc. apply H.
  apply list_elem_of_In. apply -> in_rev. now apply list_elem_of_In.
Qed.

(** The text of a subtitle is blank exactly when trimming leaves nothing. *)
Lemma trim_nil_iff_blank (s : jsstring) : trim s = [] <-> blank s.
Proof.
  split; [|apply trim_blank]. unfold trim, trimEnd. intros H.
  assert (Hrev : trimStart (rev (trimStart s)) = []).
  { apply (f_equal (@rev N)) in H. now rewrite rev_involutive in H. }
  apply trimStart_nil_blank, blank_rev, trimStart_blank_nil in Hrev.
  now apply trimStart_nil_blank.
Qed.

(** X10.  A subtitle with visible text is relayed unchanged.  For a
    record tagged 'subtitle' whose text is not blank, and a known target
    tab, handleServerMessage sends the tab the SUBTITLE message with the
    text and times as received (the text is not trimmed), then the
    preview, then stores the text; the renderer shows the trimmed text. *)
Theorem visible_subtitle_relayed (s : state) (cs : ContentScript.state) (now : Z)
    (msg : jsval) (text : jsstring) (tab : Z) :
  get_field (lit "event") msg = Some (VStr (lit "subtitle")) ->
  get_field (lit "text") msg = Some (VStr text) ->
  ~ blank text -> currentTabId s = Some tab ->
  handleServerMessage (Some msg) s =
    (s, [TabsSend tab
           (SUBTITLE (VStr text)
              (default VUndefined (get_field (lit "start") msg))
              (default VUndefined (get_field (lit "end") msg)));
         RuntimeSend (SUBTITLE_PREVIEW (VStr text));
         StorageSet (LastSubtitle (VStr text))]) /\
  ContentScript.onMessage now (ContentScript.SUBTITLE (VStr text)) cs =
    ContentScript.showSubtitle now (trim text) cs.
Proof.
  intros Hev Htext Hvis Htab.
  assert (Htrim : bool_decide (trim text = []) = false).
  { apply bool_decide_eq_false. intros H. now apply trim_nil_iff_blank in H. }
  assert (Hne : bool_decide (text = []) = false).
  { apply bool_decide_eq_false. intros ->. apply Hvis. constructor. }
  split.
  - unfold handleServerMessage. rewrite Hev, Htext.
    change (is_str (VStr (lit "subtitle")) (lit "subtitle")) with true.
    change (is_str (VStr (lit "subtitle")) (lit "error")) with false.
    unfold truthy. rewrite Hne, Htrim. unfold_handlers. cbn.
    now rewrite Htab.
  - cbn -[trim]. now rewrite Htrim.
Qed.

Lemma visible_subtitle_relayed_witness :
  ~ blank (lit " shalom ") /\
  Background.currentTabId live = Some 7 /\
  (handleServerMessage
     (Some (VObj [(lit "event", VStr (lit "subtitle"));
                  (lit "text", VStr (lit " shalom "));
                  (lit "start", VNum 0); (lit "end", VNum 5)])) live).2 =
    [TabsSend 7 (SUBTITLE (VStr (lit " shalom ")) (VNum 0) (VNum 5));
     RuntimeSend (SUBTITLE_PREVIEW (VStr (lit " shalom ")));
     StorageSet (LastSubtitle (VStr (lit " shalom ")))].
Proof.
  assert (Hvis : ~ blank (lit " shalom ")).
  { intros H. apply trim_nil_iff_blank in H. vm_compute in H. discriminate. }
  assert (Htab : Background.currentTabId live = Some 7) by (vm_compute; reflexivity).
  split; [exact Hvis|]. split; [exact Htab|].
  pose proof (visible_subtitle_relayed live ContentScript.initial 0
    (VObj [(lit "event", VStr (lit "subtitle"));
           (lit "text", VStr (lit " shalom "));
           (lit "start", VNum 0); (lit "end", VNum 5)])
    (lit " shalom ") 7 eq_refl eq_refl Hvis Htab) as [H _].
  now rewrite H.
Defined.

(** X11.  The reconnect delay grows with the attempt and stays within
    bounds: it is never below 2000 ms, never above 12000 ms, and never
    shorter than the delay of the attempt before. *)
Theorem reconnect_delay_bounds (attempt : nat) :
  2000 <= reconnect_delay attempt <= 12000 /\
  reconnect_delay attempt <= reconnect_delay (S attempt).
Proof.
  unfold reconnect_delay. rewrite Nat2Z.inj_succ, Z.pow_succ_r by lia.
  pose proof (Z.pow_pos_nonneg 2 (Z.of_nat attempt) ltac:(lia) ltac:(lia)).
  lia.
Qed.

End Controller.

(* ================================================================== *)
(** * The controller: backoff, sockets, lifecycle *)

Section Lifecycle.
Import Background.
Local Open Scope action_scope.

Ltac unfold_all :=
  unfold step, startCapture, handleServerMessage, handleAudioChunk,
    ws_onopen, ws_onerror, ws_onclose, connect_timeout,
    reconnect_now, settle, openWebSocket, startCapture_connected,
    startCapture_throw, startCapture_pause, set_stage, resume, stopCapture,
    notifyStatus, setTimeout, clearTimeout, ws_close, read, andthen, update,
    emit, skip.

Ltac case_all :=
  unfold_all;
  repeat (cbn -[lookup alter insert delete];
          match goal with
          | |- context [match ?x with _ => _ end] => destruct x eqn:?
          end);
  cbn -[lookup alter insert delete].

(** The same with stopCapture kept folded and replaced by the state it
    leaves. *)
Ltac case_steps :=
  unfold step, startCapture, handleServerMessage, handleAudioChunk,
    ws_onopen, ws_onerror, ws_onclose, connect_timeout,
    reconnect_now, settle, openWebSocket, startCapture_connected,
    startCapture_throw, startCapture_pause, set_stage, resume,
    notifyStatus, setTimeout, clearTimeout, ws_close, read, andthen, update,
    emit, skip;
  repeat (cbn -[stopCapture lookup alter insert delete];
          match goal with
          | |- context [match ?x with _ => _ end] => destruct x eqn:?
          end);
  cbn -[stopCapture lookup alter insert delete];
  rewrite ?stopCapture_state;
  repeat (cbn -[lookup alter insert delete];
          match goal with
          | |- context [match ?x with _ => _ end] => destruct x eqn:?
          end);
  cbn -[lookup alter insert delete].

(** What stopCapture emits. *)
Lemma stopCapture_effects (reason : string) (s : state) :
  (stopCapture reason s).2 =
  [RuntimeSend STOP_CAPTURE; StorageSet (Running false)] ++
  match currentTabId s with
  | Some id => if id =? 0 then [] else [TabsSend id CLEAR_SUBTITLES]
  | None => []
  end.
Proof.
  destruct s as [sock tab cfg rt run socks tms nt tks nk].
  destruct rt as [t|], sock as [w|], tab as [id|]; try reflexivity;
    unfold stopCapture, andthen, read; simpl; destruct (id =? 0); reflexivity.
Qed.

Lemma fail_cycles_spec (n : nat) :
  forall (w : nat) (ws : websocket) (s : state),
    isRunning s = true -> sockets s !! w = Some ws ->
    ws_readyState ws <> CLOSED ->
    isRunning (fail_cycles n w s).2 = true /\
    exists ws', sockets (fail_cycles n w s).2 !! (fail_cycles n w s).1 = Some ws' /\
                ws_url ws' = ws_url ws /\
                ws_attempt ws' = (ws_attempt ws + n)%nat /\
                ws_readyState ws' <> CLOSED.
Proof.
  induction n as [|n IH]; intros w ws s Hrun Hw Hopen.
  - simpl. split; [exact Hrun|]. exists ws. repeat split; auto.
  - cbn [fail_cycles]. rewrite run_two.
    rewrite (step_WsClose_running s w ws Hw Hopen Hrun). cbn [fst].
    erewrite step_reconnect_running;
      [|cbn; apply lookup_insert_eq|cbn; exact Hrun].
    cbn -[lookup alter insert delete]. rewrite length_alter.
    match goal with |- context [fail_cycles n _ ?s1] =>
      destruct (IH (length (sockets s))
                  {| ws_url := ws_url ws; ws_attempt := ws_attempt ws + 1;
                     ws_readyState := CONNECTING; ws_t := S (next_timer s);
                     ws_settled := false; ws_waiter := Reconnect_then |} s1)
        as (Hrun' & ws' & Hw' & Hurl & Hatt & Hopen')
    end.
    + exact Hrun.
    + cbn. now rewrite lookup_app_r, length_alter, Nat.sub_diag
        by (rewrite length_alter; lia).
    + discriminate.
    + split; [exact Hrun'|]. exists ws'. split; [exact Hw'|].
      split; [exact Hurl|]. split; [simpl in Hatt; lia|exact Hopen'].
Qed.

(** X12.  Exponential backoff over consecutive failures.  While the
    session is running, after [n] connection cycles that failed in a row
    the socket in charge carries the attempt counter raised by [n], for
    the same URL, and when it closes the reconnect is announced and
    scheduled with the delay [min(2000 * 2^(a + n), 12000)] ms, [a] the
    counter of the socket the failures started from. *)
Theorem backoff_over_failed_cycles (n : nat) (w : nat) (ws : websocket) (s : state) :
  isRunning s = true -> sockets s !! w = Some ws -> ws_readyState ws <> CLOSED ->
  let w' := (fail_cycles n w s).1 in
  let s' := (fail_cycles n w s).2 in
  isRunning s' = true /\
  ws_attempt <$> sockets s' !! w' = Some (ws_attempt ws + n)%nat /\
  ws_url <$> sockets s' !! w' = Some (ws_url ws) /\
  (step (WsClose w') s').2 =
    [RuntimeSend
       (STATUS_UPDATE (ReconnectingIn (reconnect_delay (ws_attempt ws + n)))
          (lit "error"))] /\
  delay <$> timers (step (WsClose w') s').1 !! next_timer s' =
    Some (reconnect_delay (ws_attempt ws + n)).
Proof.
  intros Hrun Hw Hopen w' s'.
  destruct (fail_cycles_spec n w ws s Hrun Hw Hopen)
    as (Hrun' & ws' & Hw' & Hurl & Hatt & Hopen').
  fold w' s' in Hrun', Hw'.
  split; [exact Hrun'|].
  split; [now rewrite Hw', <- Hatt|]. split; [now rewrite Hw', <- Hurl|].
  rewrite (step_WsClose_running s' w' ws' Hw' Hopen' Hrun'). cbn. rewrite Hatt.
  split; [reflexivity|]. now rewrite lookup_insert_eq.
Qed.

Lemma backoff_over_failed_cycles_witness :
  isRunning connected = true /\
  sockets connected !! 0%nat = Some open_socket /\
  (step (WsClose (fail_cycles 3 0 connected).1) (fail_cycles 3 0 connected).2).2 =
    [RuntimeSend
       (STATUS_UPDATE
          (ReconnectingIn (reconnect_delay (ws_attempt open_socket + 3)))
          (lit "error"))].
Proof.
  assert (H1 : isRunning connected = true) by (vm_compute; reflexivity).
  assert (H2 : sockets connected !! 0%nat = Some open_socket)
    by (vm_compute; reflexivity).
  split; [exact H1|]. split; [exact H2|].
  pose proof (backoff_over_failed_cycles 3 0 open_socket connected H1 H2
                ltac:(discriminate)) as H.
  cbv zeta in H. exact (proj1 (proj2 (proj2 (proj2 H)))).
Defined.

(** A turn of the event loop keeps [socket], clears it, or points it
    to the WebSocket it has just constructed. *)
Lemma step_socket_cases (ev : event) (s : state) :
  ((socket (step ev s).1 = socket s \/ socket (step ev s).1 = None) /\
   length (sockets (step ev s).1) = length (sockets s))
  \/ (socket (step ev s).1 = Some (length (sockets s)) /\
      length (sockets (step ev s).1) = S (length (sockets s))).
Proof.
  destruct ev; case_steps; rewrite ?length_alter, ?length_app; cbn;
    first [ left; split; [left; first [reflexivity|assumption]|reflexivity]
          | left; split; [right; first [reflexivity|assumption]|reflexivity]
          | right; split; [reflexivity|lia] ].
Qed.

Lemma step_socket_is_newest (ev : event) (s : state) :
  socket_is_newest s -> socket_is_newest (step ev s).1.
Proof.
  unfold socket_is_newest. intros H.
  destruct (step_socket_cases ev s) as [[[-> | ->] Hlen]|[-> Hlen]];
    rewrite ?Hlen; auto.
Qed.

(** X13.  The controller only ever refers to the newest WebSocket: in
    every state reached from the initial one, [socket] is null or the
    socket constructed last, so an older socket is never written to: every
    frame handleAudioChunk writes goes to the newest socket. *)
Theorem socket_is_always_newest (evs : list event) (chunk : jsstring)
    (metadata : chunk_metadata) :
  let s := (run evs initial).1 in
  socket_is_newest s /\
  forall w f, In (SocketSend w f) (handleAudioChunk chunk metadata s).2 ->
              S w = length (sockets s).
Proof.
  intros s.
  assert (Hnew : socket_is_newest s).
  { unfold s. generalize initial, (I : socket_is_newest initial).
    induction evs as [|ev evs IH]; intros s0 H0; [exact H0|].
    rewrite run_cons. apply IH. now apply step_socket_is_newest. }
  split; [exact Hnew|]. intros w f Hin.
  unfold socket_is_newest in Hnew. unfold handleAudioChunk, read in Hin.
  destruct (socket s) as [w0|]; [|destruct Hin].
  destruct (ws_readyState <$> sockets s !! w0) as [[| | |]|]; try destruct Hin.
  destruct (Base64.atob chunk); [|destruct Hin].
  cbn in Hin. destruct Hin as [[= <- _]|[[= <- _]|[]]]; exact Hnew.
Qed.

(** X14.  Tab events of other tabs do not touch the session.  The close
    of a tab other than the captured one, and an update of any tab that is
    not the captured tab starting to load, change nothing and send
    nothing; the close of the captured tab and its navigation run
    stopCapture. *)
Theorem tab_events_only_for_captured_tab (s : state) (id : Z) (status : jsstring) :
  (currentTabId s <> Some id ->
     step (TabRemoved id) s = (s, []) /\ step (TabUpdated id status) s = (s, [])) /\
  (status <> lit "loading" -> step (TabUpdated id status) s = (s, [])) /\
  (currentTabId s = Some id ->
     step (TabRemoved id) s = stopCapture "tab closed" s /\
     step (TabUpdated id (lit "loading")) s = stopCapture "tab navigated" s).
Proof.
  unfold step, read. split; [|split].
  - intros Hne. rewrite bool_decide_eq_false_2 by congruence. easy.
  - intros Hne. rewrite (bool_decide_eq_false_2 (status = _)) by exact Hne.
    now rewrite andb_false_r.
  - intros ->. rewrite !bool_decide_eq_true_2 by reflexivity. easy.
Qed.

Lemma tab_events_only_for_captured_tab_witness :
  currentTabId live <> Some 8 /\
  step (TabRemoved 8) live = (live, []) /\
  step (TabUpdated 8 (lit "loading")) live = (live, []).
Proof.
  assert (H : currentTabId live <> Some 8) by (vm_compute; discriminate).
  split; [exact H|].
  exact (proj1 (tab_events_only_for_captured_tab live 8 (lit "loading")) H).
Defined.

(** X15.  A start request while a session is running stops it first:
    the request emits everything stopCapture('restart') emits and only
    then queries the active tab; afterwards the old socket is no longer
    referenced, the pending backoff timer is cancelled, and the session
    counts as running with the new configuration.  A start request on a
    controller that is not running emits the tab query alone. *)
Theorem restart_stops_first (s : state) (cfg : start_config) :
  (isRunning s = true ->
     (step (MsgSTART_CAPTURE cfg) s).2 = (stopCapture "restart" s).2 ++ [TabsQuery] /\
     socket (step (MsgSTART_CAPTURE cfg) s).1 = None /\
     (forall t, wsReconnectTimer s = Some t ->
                timers (step (MsgSTART_CAPTURE cfg) s).1 !! t = None) /\
     sockets (step (MsgSTART_CAPTURE cfg) s).1 = sockets (stopCapture "restart" s).1) /\
  (isRunning s = false ->
     (step (MsgSTART_CAPTURE cfg) s).2 = [TabsQuery] /\
     socket (step (MsgSTART_CAPTURE cfg) s).1 = socket s /\
     sockets (step (MsgSTART_CAPTURE cfg) s).1 = sockets s) /\
  isRunning (step (MsgSTART_CAPTURE cfg) s).1 = true /\
  config (step (MsgSTART_CAPTURE cfg) s).1 = Some cfg /\
  t_stage <$> tasks (step (MsgSTART_CAPTURE cfg) s).1 !! next_task s
    = Some AwaitTabsQuery.
Proof.
  unfold step, startCapture, read, andthen, update, emit.
  cbn -[stopCapture lookup insert].
  split; [|split].
  - intros Hrun. rewrite Hrun. cbn -[stopCapture lookup insert].
    rewrite !stopCapture_effects, !stopCapture_state. cbn -[lookup insert].
    rewrite !app_nil_r. split; [reflexivity|]. split; [reflexivity|].
    split; [|reflexivity]. intros t ->. apply lookup_delete_eq.
  - intros Hrun. rewrite Hrun. cbn. easy.
  - destruct (isRunning s); cbn -[stopCapture lookup insert];
      rewrite ?stopCapture_state; cbn -[lookup insert];
      (split; [reflexivity|]); (split; [reflexivity|]);
      now rewrite lookup_insert_eq.
Qed.

Lemma restart_stops_first_witness :
  isRunning dropped = true /\
  (step (MsgSTART_CAPTURE sample_config) dropped).2 =
    (stopCapture "restart" dropped).2 ++ [TabsQuery].
Proof.
  assert (H : isRunning dropped = true) by (vm_compute; reflexivity).
  split; [exact H|].
  exact (proj1 (proj1 (restart_stops_first dropped sample_config) H)).
Defined.

(** X16.  Capture counts as started only on the capturer's
    acknowledgement.  When the capturer answers [success: true], the call
    reports 'live', stores the running flag and answers the start request
    with [ok: true], in this order.  A missing answer, an answer without
    success and a rejected send end the call with [ok: false] and an error
    text instead, and neither 'live' nor the running flag is emitted. *)
Theorem capture_needs_acknowledgement (s : state) (rid : nat) (tk : task) :
  tasks s !! rid = Some tk -> t_stage tk = AwaitOffscreen ->
  (forall e,
     (step (OffscreenReplied rid (inl (Some (true, e)))) s).2 =
       [RuntimeSend (STATUS_UPDATE (Text (lit "live")) (lit "active"));
        StorageSet (Running true); Respond rid true None]) /\
  (step (OffscreenReplied rid (inl None)) s).2 =
    [Respond rid false (Some (lit "Offscreen failed: no response"))] /\
  (forall e,
     (step (OffscreenReplied rid (inl (Some (false, e)))) s).2 =
       [Respond rid false
          (Some (lit "Offscreen failed: " ++ or_else e "no response"))]) /\
  (forall m, (step (OffscreenReplied rid (inr m)) s).2 =
             [Respond rid false (Some m)]) /\
  (forall r, tasks (step (OffscreenReplied rid r) s).1 = delete rid (tasks s)).
Proof.
  intros Htk Hst. unfold_all. rewrite Htk, Hst. cbn.
  repeat split; try reflexivity.
  intros [[[[|] e]|]|m]; reflexivity.
Qed.

Lemma capture_needs_acknowledgement_witness :
  tasks acknowledging !! 0%nat =
    Some {| t_cfg := sample_config; t_stage := AwaitOffscreen;
            t_streamId := lit "stream-1" |} /\
  (step (OffscreenReplied 0 (inl None)) acknowledging).2 =
    [Respond 0 false (Some (lit "Offscreen failed: no response"))].
Proof.
  assert (H : tasks acknowledging !! 0%nat =
              Some {| t_cfg := sample_config; t_stage := AwaitOffscreen;
                      t_streamId := lit "stream-1" |})
    by (vm_compute; reflexivity).
  split; [exact H|].
  exact (proj1 (proj2 (capture_needs_acknowledgement acknowledging 0 _ H eq_refl))).
Defined.

(** X17.  The active tab decides where the session goes.  When the tab
    query finds no tab, the start request is answered
    [{ok: false, error: 'No active tab found'}] and nothing else happens:
    no script is injected and no WebSocket is constructed.  When it
    finds a tab, that tab becomes [currentTabId] and the content script
    is injected into it. *)
Theorem tab_query_outcomes (s : state) (rid : nat) (tk : task) (id : Z) :
  tasks s !! rid = Some tk -> t_stage tk = AwaitTabsQuery ->
  step (TabsQueried rid (inl None)) s =
    (set_tasks (delete rid (tasks s)) (next_task s) s,
     [Respond rid false (Some (lit "No active tab found"))]) /\
  (step (TabsQueried rid (inl (Some id))) s).2 = [ExecuteScript id] /\
  currentTabId (step (TabsQueried rid (inl (Some id))) s).1 = Some id /\
  sockets (step (TabsQueried rid (inl (Some id))) s).1 = sockets s.
Proof.
  intros Htk Hst. unfold_all. rewrite Htk, Hst. cbn. easy.
Qed.

Lemma tab_query_outcomes_witness :
  tasks querying !! 0%nat =
    Some {| t_cfg := sample_config; t_stage := AwaitTabsQuery; t_streamId := [] |} /\
  (step (TabsQueried 0 (inl None)) querying).2 =
    [Respond 0 false (Some (lit "No active tab found"))].
Proof.
  assert (H : tasks querying !! 0%nat =
              Some {| t_cfg := sample_config; t_stage := AwaitTabsQuery;
                      t_streamId := [] |}) by (vm_compute; reflexivity).
  split; [exact H|].
  pose proof (tab_query_outcomes querying 0 _ 7 H eq_refl) as [Hnone _].
  now rewrite Hnone.
Defined.

(** X19.  Once a socket is open its connect timeout is gone.  The open
    event cancels the 7000 ms timer of the socket and reports 'connected'
    first; a later expiry of that timer finds nothing to run, so it can
    neither close the open socket nor fail a start that has gone on.
    The waiter then proceeds: a start call asks for the stream id of the
    current tab, a reconnection reports 'reconnected'. *)
Theorem open_cancels_connect_timeout (s : state) (w : nat) (ws : websocket) :
  sockets s !! w = Some ws -> ws_readyState ws = CONNECTING ->
  ws_settled ws = false ->
  let opened := (step (WsOpen w) s).1 in
  timers opened = delete (ws_t ws) (timers s) /\
  step (TimerFired (ws_t ws)) opened = (opened, []) /\
  (step (WsOpen w) s).2 =
    RuntimeSend (STATUS_UPDATE (Text (lit "connected")) (lit "active")) ::
    match ws_waiter ws with
    | StartCapture_await _ => [GetMediaStreamId (currentTabId s)]
    | Reconnect_then =>
        [RuntimeSend (STATUS_UPDATE (Text (lit "reconnected")) (lit "active"))]
    end.
Proof.
  intros Hw Hc Hs opened.
  assert (Ht : timers opened = delete (ws_t ws) (timers s)).
  { unfold opened. unfold_all. rewrite Hw. cbn -[lookup alter delete].
    rewrite Hc.
    repeat (rewrite ?list_lookup_alter_eq, ?Hw; cbn -[lookup alter delete]).
    rewrite Hs. now destruct (ws_waiter ws). }
  split; [exact Ht|]. split.
  - unfold step at 1, read. rewrite Ht, lookup_delete_eq. reflexivity.
  - unfold_all. rewrite Hw. cbn -[lookup alter delete]. rewrite Hc.
    repeat (rewrite ?list_lookup_alter_eq, ?Hw; cbn -[lookup alter delete]).
    rewrite Hs. now destruct (ws_waiter ws).
Qed.

Lemma open_cancels_connect_timeout_witness :
  sockets connecting !! 0%nat = Some first_socket /\
  step (TimerFired (ws_t first_socket)) (step (WsOpen 0) connecting).1 =
    ((step (WsOpen 0) connecting).1, []).
Proof.
  assert (H : sockets connecting !! 0%nat = Some first_socket)
    by (vm_compute; reflexivity).
  split; [exact H|].
  pose proof (open_cancels_connect_timeout connecting 0 first_socket
                H eq_refl eq_refl) as Hthm.
  cbv zeta in Hthm. exact (proj1 (proj2 Hthm)).
Defined.

(** X20.  A connection error fails the pending open at once, without
    waiting for the timeout: the error event cancels the socket's 7000 ms
    timer and rejects with 'failed'.  A start call waiting for the socket
    is answered [{ok: false, error: 'failed'}]; a reconnection swallows the
    error.  The handler itself schedules no retry and leaves the running
    flag alone: retries come from the close event. *)
Theorem connection_error_fails_fast (s : state) (w : nat) (ws : websocket) :
  sockets s !! w = Some ws -> ws_readyState ws <> CLOSED ->
  ws_settled ws = false ->
  (step (WsError w) s).2 =
    match ws_waiter ws with
    | StartCapture_await rid => [Respond rid false (Some (lit "failed"))]
    | Reconnect_then => []
    end /\
  timers (step (WsError w) s).1 = delete (ws_t ws) (timers s) /\
  isRunning (step (WsError w) s).1 = isRunning s /\
  wsReconnectTimer (step (WsError w) s).1 = wsReconnectTimer s /\
  ws_settled <$> sockets (step (WsError w) s).1 !! w = Some true.
Proof.
  intros Hw Hopen Hs. unfold_all. rewrite Hw. cbn -[lookup alter delete].
  destruct (ws_readyState ws) eqn:E; try congruence;
    cbn -[lookup alter delete];
    repeat (rewrite ?list_lookup_alter_eq, ?Hw, ?Hs; cbn -[lookup alter delete]);
    destruct (ws_waiter ws); cbn -[lookup alter delete];
    rewrite ?list_lookup_alter_eq, ?Hw; easy.
Qed.

Lemma connection_error_fails_fast_witness :
  sockets connecting !! 0%nat = Some first_socket /\
  (step (WsError 0) connecting).2 = [Respond 0 false (Some (lit "failed"))].
Proof.
  assert (H : sockets connecting !! 0%nat = Some first_socket)
    by (vm_compute; reflexivity).
  split; [exact H|].
  exact (proj1 (connection_error_fails_fast connecting 0 first_socket H
                  ltac:(discriminate) eq_refl)).
Defined.

(** X29.  A connection attempt is given 7000 ms.  Every WebSocket is
    constructed connecting, with a timer of 7000 ms of its own.  When
    that timer fires while the socket is still connecting and its promise
    unsettled, the socket is closed and the promise is rejected with
    'timeout': a start call waiting for the socket is answered
    [{ok: false, error: 'timeout'}], a reconnection swallows the error.
    The callback leaves the running flag, the socket reference and the
    backoff timer alone.  A url the WebSocket constructor refuses never
    becomes an attempt: the start call is answered with the message of
    the exception at once, and no socket and no timer exist for it. *)
Theorem connect_timeout_aborts (s : state) (w : nat) (ws : websocket) (d : Z) :
  sockets s !! w = Some ws -> ws_readyState ws = CONNECTING ->
  ws_settled ws = false ->
  timers s !! ws_t ws = Some {| delay := d; cb := ConnectTimeout w |} ->
  let fired := step (TimerFired (ws_t ws)) s in
  fired.2 = match ws_waiter ws with
            | StartCapture_await rid => [Respond rid false (Some (lit "timeout"))]
            | Reconnect_then => []
            end /\
  ws_readyState <$> sockets fired.1 !! w = Some CLOSING /\
  ws_settled <$> sockets fired.1 !! w = Some true /\
  timers fired.1 = delete (ws_t ws) (timers s) /\
  isRunning fired.1 = isRunning s /\ socket fired.1 = socket s /\
  wsReconnectTimer fired.1 = wsReconnectTimer s /\
  (forall ev new,
     sockets (step ev s).1 !! length (sockets s) = Some new ->
     ws_readyState new = CONNECTING /\ ws_settled new = false /\
     timers (step ev s).1 !! ws_t new =
       Some {| delay := 7000; cb := ConnectTimeout (length (sockets s)) |}) /\
  (forall rid tk message,
     tasks s !! rid = Some tk -> t_stage tk = AwaitExecuteScript ->
     let refused := step (ScriptInjected rid (Some message)) s in
     refused.2 = [Respond rid false (Some message)] /\
     sockets refused.1 = sockets s /\ timers refused.1 = timers s /\
     socket refused.1 = socket s /\ tasks refused.1 !! rid = None).
Proof.
  intros Hw Hc Hs Ht fired.
  assert (Hfired :
    fired.2 = match ws_waiter ws with
              | StartCapture_await rid => [Respond rid false (Some (lit "timeout"))]
              | Reconnect_then => []
              end /\
    ws_readyState <$> sockets fired.1 !! w = Some CLOSING /\
    ws_settled <$> sockets fired.1 !! w = Some true /\
    timers fired.1 = delete (ws_t ws) (timers s) /\
    isRunning fired.1 = isRunning s /\ socket fired.1 = socket s /\
    wsReconnectTimer fired.1 = wsReconnectTimer s).
  { unfold fired. unfold_all. rewrite Ht. cbn -[lookup alter delete].
    repeat (rewrite ?list_lookup_alter_eq, ?Hw, ?Hc, ?Hs; cbn -[lookup alter delete]).
    destruct (ws_waiter ws); cbn -[lookup alter delete];
      rewrite ?list_lookup_alter_eq, ?Hw; cbn -[lookup alter delete];
      rewrite ?Hc; easy. }
  destruct Hfired as (H1 & H2 & H3 & H4 & H5 & H6 & H7).
  do 7 (split; [assumption|]). split.
  - intros ev new Hnew.
    destruct (step_new_connection ev s _ new Hnew ltac:(lia))
      as (_ & [(rid & tk & -> & Htk & Hst & ->)
              |(t & d' & url & n & -> & Htm & Hrun & ->)]).
    + destruct (step_ScriptInjected s rid tk Htk Hst) as (_ & Htimers & _).
      cbn [ws_readyState ws_settled ws_t]. rewrite Htimers.
      split; [reflexivity|]. split; [reflexivity|]. apply lookup_insert_eq.
    + rewrite (step_reconnect_running s t d' url n Htm Hrun).
      cbn [ws_readyState ws_settled ws_t]. cbn.
      split; [reflexivity|]. split; [reflexivity|]. apply lookup_insert_eq.
  - intros rid tk message Htk Hst refused. unfold refused. unfold_all.
    rewrite Htk, Hst. cbn -[lookup alter delete].
    do 4 (split; [reflexivity|]). apply lookup_delete_eq.
Qed.

Lemma connect_timeout_aborts_witness :
  sockets connecting !! 0%nat = Some first_socket /\
  timers connecting !! 0%nat = Some {| delay := 7000; cb := ConnectTimeout 0 |} /\
  (step (TimerFired 0) connecting).2 = [Respond 0 false (Some (lit "timeout"))].
Proof.
  assert (H : sockets connecting !! 0%nat = Some first_socket)
    by (vm_compute; reflexivity).
  assert (Ht : timers connecting !! ws_t first_socket =
               Some {| delay := 7000; cb := ConnectTimeout 0 |})
    by (vm_compute; reflexivity).
  split; [exact H|]. split; [exact Ht|].
  exact (proj1 (connect_timeout_aborts connecting 0 first_socket 7000 H
                  eq_refl eq_refl Ht)).
Defined.

Ltac case_idle Hrun Htk Hsock :=
  unfold step, startCapture, handleServerMessage, handleAudioChunk,
    ws_onopen, ws_onerror, ws_onclose, connect_timeout,
    reconnect_now, settle, openWebSocket, startCapture_connected,
    startCapture_throw, startCapture_pause, set_stage, resume,
    notifyStatus, setTimeout, clearTimeout, ws_close, read, andthen, update,
    emit, skip;
  repeat (cbn -[stopCapture lookup alter insert delete];
          rewrite ?Hrun, ?Htk, ?Hsock, ?lookup_empty;
          match goal with
          | |- context [match ?x with _ => _ end] => destruct x eqn:?
          end);
  cbn -[stopCapture lookup alter insert delete];
  rewrite ?stopCapture_state, ?stopCapture_effects;
  repeat (cbn -[lookup alter insert delete];
          match goal with
          | |- context [match ?x with _ => _ end] => destruct x eqn:?
          end);
  cbn -[lookup alter insert delete].

Lemma step_idle_socket (ev : event) (s : state) :
  idle s -> not_a_start ev -> socket (step ev s).1 = None.
Proof.
  intros (Hrun & Htk & Hsock) Hev. destruct ev; try (now destruct (Hev cfg));
    case_idle Hrun Htk Hsock; try reflexivity; try assumption; try discriminate;
    try (match goal with H : tasks _ !! _ = Some _ |- _ =>
           rewrite Htk, lookup_empty in H; discriminate end);
    try (rewrite Hrun in *; discriminate).
Qed.

Lemma step_idle_silent (ev : event) (s : state) :
  idle s -> not_a_start ev -> existsb is_frame (step ev s).2 = false.
Proof.
  intros (Hrun & Htk & Hsock) Hev. destruct ev; try (now destruct (Hev cfg));
    case_idle Hrun Htk Hsock; try reflexivity; try discriminate;
    try (match goal with H : tasks _ !! _ = Some _ |- _ =>
           rewrite Htk, lookup_empty in H; discriminate end);
    try (match goal with H : socket _ = Some _ |- _ =>
           rewrite Hsock in H; discriminate end);
    try (rewrite Hrun in *; discriminate).
Qed.

Lemma step_idle (ev : event) (s : state) :
  idle s -> not_a_start ev -> idle (step ev s).1.
Proof.
  intros Hidle Hev. pose proof Hidle as (Hrun & Htk & Hsock).
  split; [now apply step_keeps_stopped|].
  split; [now apply step_opens_nothing|now apply step_idle_socket].
Qed.

Lemma run_idle_silent (evs : list event) :
  forall s, idle s -> Forall not_a_start evs ->
            existsb is_frame (run evs s).2 = false.
Proof.
  induction evs as [|ev evs IH]; intros s Hidle Hevs; [reflexivity|].
  inversion_clear Hevs as [|? ? Hev Hevs'].
  change (run (ev :: evs) s).2 with ((step ev s).2 ++ (run evs (step ev s).1).2).
  rewrite existsb_app, (step_idle_silent ev s Hidle Hev). simpl.
  apply IH; [now apply step_idle|exact Hevs'].
Qed.

(** X18.  After a stop nothing is written to any socket.  When no
    startCapture call is in flight, stopCapture leaves the controller
    idle, and from then on, whatever chunks the capturer still delivers
    and whatever timers and socket events arrive, no frame is written
    until a new start request comes in. *)
Theorem no_frames_after_stop (s : state) (reason : string) (evs : list event) :
  tasks s = ∅ -> Forall not_a_start evs ->
  idle (stopCapture reason s).1 /\
  existsb is_frame (run evs (stopCapture reason s).1).2 = false /\
  idle (run evs (stopCapture reason s).1).1.
Proof.
  intros Htk Hevs.
  assert (Hidle : idle (stopCapture reason s).1).
  { rewrite stopCapture_state. repeat split; cbn; auto. }
  split; [exact Hidle|]. split; [now apply run_idle_silent|].
  revert Hidle Hevs. generalize (stopCapture reason s).1.
  induction evs as [|ev evs IH]; intros s0 Hidle Hevs; [exact Hidle|].
  inversion_clear Hevs as [|? ? Hev Hevs']. rewrite run_cons.
  apply IH; [now apply step_idle|exact Hevs'].
Qed.

Lemma no_frames_after_stop_witness :
  tasks live = ∅ /\
  Forall not_a_start
    [MsgAUDIO_CHUNK (base64_of [x1a; x45]) (segment_metadata fresh_recorder 0);
     WsClose 0] /\
  existsb is_frame
    (run [MsgAUDIO_CHUNK (base64_of [x1a; x45]) (segment_metadata fresh_recorder 0);
          WsClose 0] (stopCapture "manual" live).1).2 = false /\
  existsb is_frame
    (step (MsgAUDIO_CHUNK (base64_of [x1a; x45]) (segment_metadata fresh_recorder 0))
       live).2 = true.
Proof.
  assert (Htk : tasks live = ∅) by (vm_compute; reflexivity).
  assert (Hevs : Forall not_a_start
            [MsgAUDIO_CHUNK (base64_of [x1a; x45])
               (segment_metadata fresh_recorder 0); WsClose 0])
    by (repeat constructor; discriminate).
  split; [exact Htk|]. split; [exact Hevs|].
  split; [|vm_compute; reflexivity].
  exact (proj1 (proj2 (no_frames_after_stop live "manual" _ Htk Hevs))).
Defined.

End Lifecycle.

(* ================================================================== *)
(** * The overlay: clearing, settings, timers *)

Section Overlay.
Import ContentScript.

Lemma overlay_run_ok (evs : list (Z * event)) :
  forall s, overlay_ok s -> overlay_ok (overlay_run evs s).
Proof.
  induction evs as [|[now ev] evs IH]; intros s Hok; [exact Hok|].
  apply IH. now apply overlay_ok_step.
Qed.

(** X21.  CLEAR_SUBTITLES blanks the caption at once and leaves no timer
    behind: the overlay is hidden, its text is empty, and nothing is
    pending, so no timer of an earlier caption can act later; display
    settings are kept. *)
Theorem clear_leaves_nothing_pending (s : state) (now : Z) (t : nat) (later : Z) :
  overlay_ok s ->
  let cleared := onMessage now CLEAR_SUBTITLES s in
  hls_visible cleared = false /\ textContent cleared = [] /\
  timers cleared = ∅ /\
  fire later t cleared = cleared /\
  style_fontSize cleared = style_fontSize s /\
  hls_pos_top cleared = hls_pos_top s /\
  hls_pos_center cleared = hls_pos_center s.
Proof.
  intros Hok cleared.
  assert (Ht : timers cleared = ∅) by (apply (clearTimeout_hideTimer s Hok)).
  repeat (split; [reflexivity|]). split; [exact Ht|]. split; [|easy].
  unfold fire. now rewrite Ht, lookup_empty.
Qed.

Lemma clear_leaves_nothing_pending_witness :
  overlay_ok showing /\
  timers (onMessage 700 CLEAR_SUBTITLES showing) = ∅ /\
  fire 2500 0 (onMessage 700 CLEAR_SUBTITLES showing) =
    onMessage 700 CLEAR_SUBTITLES showing.
Proof.
  assert (Hok : overlay_ok showing).
  { apply (overlay_ok_step 0 _ initial), overlay_ok_initial. }
  split; [exact Hok|].
  pose proof (clear_leaves_nothing_pending showing 700 0 2500 Hok) as H.
  cbv zeta in H. destruct H as (_ & _ & Ht & Hf & _).
  split; [exact Ht|exact Hf].
Defined.

(** X22.  Display settings do not touch the caption.  UPDATE_DISPLAY
    changes neither the text shown, nor its visibility, nor the pending
    timer.  A missing or zero font size keeps the size, an empty position
    keeps the position, and any other position replaces it: 'top' and
    'center' select their class, every other value means bottom. *)
Theorem display_update_keeps_caption (s : state) (now : Z)
    (size : option Z) (pos : jsstring) :
  let s' := onMessage now (UPDATE_DISPLAY size pos) s in
  textContent s' = textContent s /\ hls_visible s' = hls_visible s /\
  hideTimer s' = hideTimer s /\ timers s' = timers s /\
  next_timer s' = next_timer s /\
  onMessage now (UPDATE_DISPLAY None []) s = s /\
  onMessage now (UPDATE_DISPLAY (Some 0) []) s = s /\
  (pos <> [] ->
   hls_pos_top s' = bool_decide (pos = lit "top") /\
   hls_pos_center s' = bool_decide (pos = lit "center") /\
   hls_pos_top s' && hls_pos_center s' = false).
Proof.
  intros s'. repeat (split; [reflexivity|]).
  split; [now destruct s|]. split; [now destruct s|].
  intros Hpos. unfold s'. simpl.
  rewrite (bool_decide_eq_false_2 (pos = [])) by exact Hpos. simpl.
  split; [reflexivity|]. split; [reflexivity|].
  destruct (bool_decide (pos = lit "top")) eqn:E; [|reflexivity].
  apply bool_decide_eq_true in E. subst pos. reflexivity.
Qed.

Lemma display_update_keeps_caption_witness :
  lit "center" <> [] /\
  hls_pos_center (onMessage 0 (UPDATE_DISPLAY (Some 32) (lit "center")) showing)
    = bool_decide (lit "center" = lit "center").
Proof.
  assert (H : lit "center" <> []) by (vm_compute; discriminate).
  split; [exact H|].
  pose proof (display_update_keeps_caption showing 0 (Some 32) (lit "center")) as Hthm.
  cbv zeta in Hthm. destruct Hthm as (_ & _ & _ & _ & _ & _ & _ & Hpos).
  exact (proj1 (proj2 (Hpos H))).
Defined.

Lemma position_exclusive_step (now : Z) (ev : event) (s : state) :
  hls_pos_top s && hls_pos_center s = false ->
  hls_pos_top (step now ev s) && hls_pos_center (step now ev s) = false.
Proof.
  intros H. destruct ev as [[text| |fs pos]|t]; simpl.
  - destruct text; try exact H.
    now destruct (negb (bool_decide (trim s0 = []))).
  - exact H.
  - destruct (bool_decide (pos = [])); simpl; [exact H|].
    destruct (bool_decide (pos = lit "top")) eqn:E; [|reflexivity].
    apply bool_decide_eq_true in E. subst pos. reflexivity.
  - unfold fire. destruct (timers s !! t); [|exact H].
    now destruct (_ <=? now).
Qed.

Lemma position_exclusive_run (evs : list (Z * event)) :
  forall s, hls_pos_top s && hls_pos_center s = false ->
            hls_pos_top (overlay_run evs s) && hls_pos_center (overlay_run evs s)
              = false.
Proof.
  induction evs as [|[now ev] evs IH]; intros s H; [exact H|].
  apply IH. now apply position_exclusive_step.
Qed.

(** X23.  Whatever messages and timer expiries the overlay receives,
    starting from the freshly installed overlay: at most one timer is
    pending, the one [hideTimer] records, so caption timers never pile
    up; and the overlay never carries the 'top' and the 'center' position
    class together. *)
Theorem overlay_invariants (evs : list (Z * event)) :
  let s := overlay_run evs initial in
  (forall t due, timers s !! t = Some due -> hideTimer s = Some t) /\
  (forall t1 t2 d1 d2, timers s !! t1 = Some d1 -> timers s !! t2 = Some d2 ->
                       t1 = t2) /\
  hls_pos_top s && hls_pos_center s = false.
Proof.
  intros s.
  assert (Hok : overlay_ok s) by (apply overlay_run_ok, overlay_ok_initial).
  split; [exact (proj1 Hok)|]. split.
  - intros t1 t2 d1 d2 H1 H2.
    pose proof (proj1 Hok _ _ H1). pose proof (proj1 Hok _ _ H2). congruence.
  - now apply position_exclusive_run.
Qed.

(** X24.  The caption stays up until its timer is due and is hidden
    then.  After a caption has been shown at time [now], an expiry of its
    timer before [now + max(2500, 55 * L)] does nothing; at or after that
    time it hides the overlay, leaves the text in place and leaves no
    timer pending. *)
Theorem caption_visible_until_due (s : state) (now at_ : Z) (text : jsstring) :
  overlay_ok s ->
  let shown := showSubtitle now text s in
  let t := next_timer s in
  (at_ < now + durationMs text -> fire at_ t shown = shown) /\
  (now + durationMs text <= at_ ->
   hls_visible (fire at_ t shown) = false /\
   textContent (fire at_ t shown) = text /\
   timers (fire at_ t shown) = ∅).
Proof.
  intros Hok shown t.
  assert (Ht : timers shown = {[ t := now + durationMs text ]}).
  { unfold shown. simpl. rewrite (clearTimeout_hideTimer s Hok). apply insert_empty. }
  assert (Hl : timers shown !! t = Some (now + durationMs text))
    by (rewrite Ht; apply lookup_singleton_eq).
  assert (Htext : textContent shown = text) by reflexivity.
  clearbody shown. split.
  - intros Hearly. unfold fire. rewrite Hl.
    destruct (Z.leb_spec (now + durationMs text) at_); [lia|reflexivity].
  - intros Hdue. unfold fire. rewrite Hl.
    destruct (Z.leb_spec (now + durationMs text) at_); [|lia].
    split; [reflexivity|]. split; [exact Htext|].
    cbn [timers]. rewrite Ht. apply delete_singleton_eq.
Qed.

Lemma caption_visible_until_due_witness :
  overlay_ok initial /\
  fire 2499 0 (showSubtitle 0 (lit "Hello you!") initial) =
    showSubtitle 0 (lit "Hello you!") initial /\
  hls_visible (fire 2500 0 (showSubtitle 0 (lit "Hello you!") initial)) = false.
Proof.
  split; [exact overlay_ok_initial|].
  pose proof (caption_visible_until_due initial 0 2499 (lit "Hello you!")
                overlay_ok_initial) as H1.
  pose proof (caption_visible_until_due initial 0 2500 (lit "Hello you!")
                overlay_ok_initial) as H2.
  cbv zeta in H1, H2.
  split; [apply (proj1 H1); vm_compute; reflexivity|].
  apply (proj2 H2). vm_compute. discriminate.
Defined.

(** X25.  The presentation time of a caption: 2500 ms for texts of up to
    45 code units, 55 ms per code unit beyond that; it never decreases
    when the text gets longer. *)
Theorem durationMs_formula (text longer : jsstring) :
  durationMs text =
    (if (length text <=? 45)%nat then 2500 else Z.of_nat (length text) * 55) /\
  2500 <= durationMs text /\
  durationMs text <= durationMs (text ++ longer).
Proof.
  unfold durationMs. rewrite length_app, Nat2Z.inj_add.
  destruct (Nat.leb_spec (length text) 45); lia.
Qed.

End Overlay.

(* ================================================================== *)
(** * The popup: the start request, the controls, the latency *)

Section PopupFacts.
Import Popup.

Lemma trimStart_head (s : jsstring) (c : N) (r : jsstring) :
  trimStart s = c :: r -> is_white_space c = false.
Proof.
  induction s as [|a s IH]; [discriminate|]. cbn.
  destruct (is_white_space a) eqn:Ha; [exact IH|].
  intros H. injection H as <- _. exact Ha.
Qed.

Lemma trimStart_suffix (s : jsstring) : exists p, s = p ++ trimStart s.
Proof.
  induction s as [|a s [p IH]]; [now exists []|]. cbn.
  destruct (is_white_space a).
  - exists (a :: p). cbn. now rewrite <- IH.
  - now exists [].
Qed.

(** What [trim] leaves, if anything, neither starts nor ends with white
    space. *)
Lemma trim_ends (s : jsstring) :
  trim s <> [] ->
  (exists c r, trim s = c :: r /\ is_white_space c = false) /\
  (exists r c, trim s = r ++ [c] /\ is_white_space c = false).
Proof.
  unfold trim, trimEnd. intros Hne.
  destruct (trimStart (rev (trimStart s))) as [|c r] eqn:Hb; [now destruct Hne|].
  split.
  - destruct (trimStart_suffix (rev (trimStart s))) as [p Hp].
    rewrite Hb in Hp. apply (f_equal (@rev N)) in Hp.
    rewrite rev_involutive, rev_app_distr in Hp.
    destruct (rev (c :: r)) as [|c' r'] eqn:Hrev; [now destruct Hne|].
    exists c', r'. split; [reflexivity|].
    apply (trimStart_head s c' (r' ++ rev p)). exact Hp.
  - exists (rev r), c. split; [reflexivity|].
    exact (trimStart_head _ _ _ Hb).
Qed.

(** X26.  The start request always names a server.  A click on Start
    persists and sends one and the same configuration; the form's values
    are passed on as read, except the server address: it is trimmed, and
    the default address takes its place when nothing but white space was
    entered.  So the address sent is never empty and neither starts nor
    ends with white space. *)
Theorem start_request_names_a_server
    (chunk_value : option Z) (model_value pos_value : jsstring)
    (font_value : option Z) (url_value : jsstring) (s : state) :
  exists cfg,
    (step (StartClicked chunk_value model_value pos_value font_value
             url_value) s).2
      = [StorageSyncSet cfg; SendSTART_CAPTURE cfg] /\
    chunkSize cfg = chunk_value /\ modelSize cfg = model_value /\
    overlayPos cfg = pos_value /\ fontSize cfg = font_value /\
    (blank url_value -> wsUrl cfg = lit "ws://localhost:8000/ws/translate") /\
    (~ blank url_value -> wsUrl cfg = trim url_value) /\
    (exists c r, wsUrl cfg = c :: r /\ is_white_space c = false) /\
    (exists r c, wsUrl cfg = r ++ [c] /\ is_white_space c = false).
Proof.
  eexists. split; [reflexivity|]. cbn [chunkSize modelSize overlayPos fontSize wsUrl].
  do 4 (split; [reflexivity|]).
  unfold url_or_default. destruct (bool_decide (trim url_value = [])) eqn:Ht.
  - apply bool_decide_eq_true in Ht. split; [reflexivity|].
    split; [intros H; destruct H; now apply trim_nil_iff_blank|].
    split.
    + eexists _, _. split; [vm_compute; reflexivity|vm_compute; reflexivity].
    + exists (lit "ws://localhost:8000/ws/translat"), 101%N.
      split; vm_compute; reflexivity.
  - apply bool_decide_eq_false in Ht.
    split; [intros H; destruct Ht; now apply trim_nil_iff_blank|].
    split; [reflexivity|]. now apply trim_ends.
Qed.

Lemma controls_setRunningUI (running : bool) (s : state) :
  controls running (setRunningUI running s).
Proof. now repeat split. Qed.

Lemma controls_step (ev : event) (s : state) (running : bool) :
  controls running s ->
  (exists r, controls r (step ev s).1) /\
  (is_message ev = true -> controls running (step ev s).1).
Proof.
  intros Hc. destruct ev as [? ? ? ? ?|lastError resp| |msg now|running'].
  - split; [|discriminate]. exists true. apply controls_setRunningUI.
  - split; [|discriminate]. cbn.
    destruct (lastError || _).
    + exists false. apply controls_setRunningUI.
    + now exists running.
  - split; [|discriminate]. exists false. now repeat split.
  - assert (H : controls running (step (Received msg now) s).1).
    { destruct msg; cbn; try exact Hc.
      destruct (0 <? subtitleReceivedAt s); exact Hc. }
    split; [now exists running|now intros _].
  - split; [|discriminate]. destruct running' as [[|]|]; cbn.
    + exists true. apply controls_setRunningUI.
    + now exists running.
    + now exists running.
Qed.

(** X27.  The controls of the popup move together, and only the popup
    moves them.  From a state in which Start, Stop and the three
    settings agree on whether a capture runs, they agree after every
    sequence of events; and a sequence of messages alone (status
    updates, previews and whatever else is broadcast) leaves them as
    they were: a capture the controller stops on its own does not give
    the Start button back. *)
Theorem controls_move_together (evs : list event) (s : state) (running : bool) :
  controls running s ->
  (exists r, controls r (run evs s)) /\
  (forallb is_message evs = true -> controls running (run evs s)).
Proof.
  revert s running. induction evs as [|ev evs IH]; intros s running Hc.
  - split; [now exists running|now intros _].
  - destruct (controls_step ev s running Hc) as [[r Hr] Hmsg].
    change (run (ev :: evs) s) with (run evs (step ev s).1). split.
    + exact (proj1 (IH _ _ Hr)).
    + cbn [forallb]. intros H. apply andb_true_iff in H as [H1 H2].
      exact (proj2 (IH _ _ (Hmsg H1)) H2).
Qed.

Lemma controls_move_together_witness :
  controls false halted /\
  controls false
    (run [Received (Background.STATUS_UPDATE
                      (Background.Text (lit "stopped: tab closed")) [])
            100;
          Received (Background.SUBTITLE_PREVIEW (VStr (lit "shalom"))) 200]
       halted).
Proof.
  assert (Hc : controls false halted) by (now repeat split).
  split; [exact Hc|].
  apply (controls_move_together
           [Received (Background.STATUS_UPDATE
                        (Background.Text (lit "stopped: tab closed")) [])
              100;
            Received (Background.SUBTITLE_PREVIEW (VStr (lit "shalom"))) 200]
           halted false Hc).
  reflexivity.
Defined.

Lemma step_keeps_subtitleReceivedAt (ev : event) (s : state) :
  no_preview ev = true ->
  subtitleReceivedAt (step ev s).1 = subtitleReceivedAt s.
Proof.
  destruct ev as [? ? ? ? ?|lastError resp| |msg now|running]; cbn.
  - reflexivity.
  - now destruct (lastError || _).
  - reflexivity.
  - now destruct msg.
  - now destruct running as [[|]|].
Qed.

Lemma run_keeps_subtitleReceivedAt (evs : list event) :
  forall s, forallb no_preview evs = true ->
  subtitleReceivedAt (run evs s) = subtitleReceivedAt s.
Proof.
  induction evs as [|ev evs IH]; intros s H; [reflexivity|].
  cbn [forallb] in H. apply andb_true_iff in H as [H1 H2].
  change (run (ev :: evs) s) with (run evs (step ev s).1).
  now rewrite IH, step_keeps_subtitleReceivedAt.
Qed.

(** X28.  The latency read-out is the time between two previews.  When a
    preview arrives at [t1] and the next one at [t2], whatever else
    happens in between (status updates, clicks on Stop and Start,
    answers), the label then shows [t2 - t1] and the preview shows the
    second text.  The bar shows [t2 - t1] as well when the clock has not
    gone back ([t1 <= t2]); otherwise the width computed is negative, the
    style object ignores it and the bar keeps the width it had.  A
    preview that finds no earlier arrival time leaves the read-out
    alone. *)
Theorem latency_is_gap_between_previews
    (t1 t2 : Z) (text1 text2 : jsval) (evs : list event) (s : state) :
  0 < t1 ->
  forallb no_preview evs = true ->
  let before := run (Received (Background.SUBTITLE_PREVIEW text1) t1 :: evs) s in
  let s' := run (Received (Background.SUBTITLE_PREVIEW text1) t1
                   :: evs ++ [Received (Background.SUBTITLE_PREVIEW text2) t2])
              s in
  latLabel s' = Millis (t2 - t1) /\
  (t1 <= t2 -> latBar_width s' = Percent (t2 - t1)) /\
  (t2 < t1 -> latBar_width s' = latBar_width before) /\
  previewEl s' = text2 /\ subtitleReceivedAt s' = t2 /\
  (subtitleReceivedAt s <= 0 ->
   let first := (step (Received (Background.SUBTITLE_PREVIEW text1) t1) s).1 in
   latLabel first = latLabel s /\ latBar_width first = latBar_width s).
Proof.
  intros Ht1 Hevs before s'.
  assert (Hlast : forall s0, subtitleReceivedAt s0 = t1 ->
            let s1 := (step (Received (Background.SUBTITLE_PREVIEW text2) t2) s0).1 in
            latLabel s1 = Millis (t2 - t1) /\
            (t1 <= t2 -> latBar_width s1 = Percent (t2 - t1)) /\
            (t2 < t1 -> latBar_width s1 = latBar_width s0) /\
            previewEl s1 = text2 /\ subtitleReceivedAt s1 = t2).
  { intros s0 H0. cbn. rewrite H0.
    destruct (0 <? t1) eqn:Hpos; [|apply Z.ltb_ge in Hpos; lia]. cbn.
    split; [reflexivity|].
    destruct (t2 - t1 <? 0) eqn:Hneg;
      [apply Z.ltb_lt in Hneg|apply Z.ltb_ge in Hneg];
      (split; [intros; try reflexivity; lia|]);
      (split; [intros; try reflexivity; lia|]); now split. }
  assert (Hs' : s' = fst (step (Received (Background.SUBTITLE_PREVIEW text2) t2)
                            before)).
  { unfold s', before, run. cbn [fold_left]. now rewrite fold_left_app. }
  rewrite Hs'.
  destruct (Hlast before) as (H1 & H2 & H3 & H4 & H5).
  { unfold before.
    change (run (?e :: evs) s) with (run evs (step e s).1).
    rewrite run_keeps_subtitleReceivedAt by exact Hevs. cbn.
    now destruct (0 <? subtitleReceivedAt s). }
  do 5 (split; [assumption|]).
  intros Hzero first. unfold first. cbn.
  destruct (0 <? subtitleReceivedAt s) eqn:Hpos; [apply Z.ltb_lt in Hpos; lia|].
  now split.
Qed.

Lemma latency_is_gap_between_previews_witness :
  0 < 1000 /\
  latLabel
    (run (Received (Background.SUBTITLE_PREVIEW (VStr (lit "a"))) 1000
            :: [StopClicked] ++
               [Received (Background.SUBTITLE_PREVIEW (VStr (lit "b"))) 4500])
       halted) = Millis (4500 - 1000).
Proof.
  split; [lia|].
  pose proof (latency_is_gap_between_previews 1000 4500 (VStr (lit "a"))
                (VStr (lit "b")) [StopClicked] halted ltac:(lia) eq_refl) as H.
  cbv zeta in H. exact (proj1 H).
Defined.

End PopupFacts.
